(** * WebSocketServer: handshake negotiation and frame codec

    A shallow embedding of the two variants of the [WebSocketServer] class
    (the complete one with the frame codec, and the handshake-only one under
    [server/classes/WebSocketServer.js]), together with the fragments of the
    JavaScript / Node.js runtime the class calls: strings of UTF-16 code
    units, [Buffer]s of bytes, UTF-8 decoding and encoding, [JSON.stringify]
    on strings, SHA-1 and base64.

    Logging through [console.log] and the socket plumbing of the constructor
    are not modelled: the embedded functions are the static helpers, which
    compute the reply from the received chunk. *)

From Stdlib Require Import ZArith List String Ascii Bool Lia.
From Stdlib Require Import Init.Byte Strings.Byte.
From stdpp Require Import base list.
Import ListNotations.
Local Open Scope Z_scope.

(** ** The JavaScript runtime, as far as the class uses it *)

Module JS.

(** A JavaScript string is a sequence of 16-bit code units. *)
Abbreviation jsstring := (list Z).

(** A [Buffer] is a sequence of bytes. *)
Abbreviation Buffer := (list byte).

Definition byte_to_Z (b : byte) : Z := Z.of_N (Byte.to_N b).

(** The byte holding [z mod 256]. *)
Definition byte_of_Z (z : Z) : byte :=
  match Byte.of_N (Z.to_N (z mod 256)) with
  | Some b => b
  | None => x00
  end.

(** An ASCII literal of the source as a JavaScript string. *)
Definition lit (s : string) : jsstring :=
  map (fun a => Z.of_N (N_of_ascii a)) (list_ascii_of_string s).

Definition CR : Z := 13.
Definition LF : Z := 10.

(** Exceptions the modelled runtime calls can raise. *)
Inductive error :=
| RangeError
| TypeError.

(** The outcome of a call: a value, or a thrown exception. *)
Inductive completion (A : Type) :=
| Normal (a : A)
| Throw (e : error).
Arguments Normal {A} a.
Arguments Throw {A} e.

Definition bind {A B} (c : completion A) (k : A -> completion B) : completion B :=
  match c with
  | Normal a => k a
  | Throw e => Throw e
  end.

(** *** String.prototype methods *)

(** [s.startsWith(p, 0)] *)
Fixpoint startsWith (s p : jsstring) {struct p} : bool :=
  match p, s with
  | [], _ => true
  | _ :: _, [] => false
  | c :: p', d :: s' => (c =? d) && startsWith s' p'
  end.

(** [s.includes(p)]: [p] occurs in [s] at some position. *)
Fixpoint includes (s p : jsstring) : bool :=
  startsWith s p ||
  match s with
  | [] => false
  | _ :: s' => includes s' p
  end.

(** [s.split(sep)] for a separator of one code unit; the result always has
    at least one element. *)
Fixpoint split (s : jsstring) (sep : Z) : list jsstring :=
  match s with
  | [] => [[]]
  | c :: s' =>
      if c =? sep then [] :: split s' sep
      else match split s' sep with
           | l :: ls => (c :: l) :: ls
           | [] => [[c]]
           end
  end.

(** [s.substr(start)] with the length omitted. *)
Definition substr (s : jsstring) (start : Z) : jsstring :=
  let len := Z.of_nat (length s) in
  let from := if start <? 0 then Z.max (len + start) 0 else Z.min start len in
  drop (Z.to_nat from) s.

(** [s.slice(b, e)] *)
Definition slice (s : jsstring) (b e : Z) : jsstring :=
  let len := Z.of_nat (length s) in
  let from := if b <? 0 then Z.max (len + b) 0 else Z.min b len in
  let to := if e <? 0 then Z.max (len + e) 0 else Z.min e len in
  take (Z.to_nat (to - from)) (drop (Z.to_nat from) s).

(** [String.fromCharCode(n)]: the code unit [ToUint16 n]. *)
Definition fromCharCode (n : Z) : jsstring := [n mod 65536].

(** *** Reading a Buffer *)

(** [buf[i]]: [None] stands for [undefined], the value of an index outside
    the buffer. *)
Definition index (buf : Buffer) (i : Z) : option Z :=
  if i <? 0 then None else byte_to_Z <$> buf !! Z.to_nat i.

(** [ToInt32] on what [buf[i]] can yield: [undefined] becomes 0. *)
Definition toInt32 (v : option Z) : Z :=
  match v with
  | Some z => z
  | None => 0
  end.

(** The operators [&] and [^] on such operands. *)
Definition bitand (x y : option Z) : Z := Z.land (toInt32 x) (toInt32 y).
Definition bitxor (x y : option Z) : Z := Z.lxor (toInt32 x) (toInt32 y).

(** *** UTF-8 *)

Definition is_high_surrogate (c : Z) : bool := (0xD800 <=? c) && (c <=? 0xDBFF).
Definition is_low_surrogate (c : Z) : bool := (0xDC00 <=? c) && (c <=? 0xDFFF).

(** The code units of a code point. *)
Definition to_utf16 (c : Z) : jsstring :=
  if c <? 0x10000 then [c]
  else [0xD800 + (c - 0x10000) / 1024; 0xDC00 + (c - 0x10000) mod 1024].

(** A multi-byte sequence under way: the code point so far, the number of
    continuation bytes still expected, and the range the next one must
    lie in. *)
Definition pending : Type := Z * nat * Z * Z.

(** A byte met outside a multi-byte sequence. *)
Definition utf8_start (b : Z) : jsstring * option pending :=
  if b <=? 0x7F then ([b], None)
  else if (0xC2 <=? b) && (b <=? 0xDF) then
    ([], Some (Z.land b 0x1F, 0%nat, 0x80, 0xBF))
  else if (0xE0 <=? b) && (b <=? 0xEF) then
    ([], Some (Z.land b 0xF, 1%nat,
               (if b =? 0xE0 then 0xA0 else 0x80),
               (if b =? 0xED then 0x9F else 0xBF)))
  else if (0xF0 <=? b) && (b <=? 0xF4) then
    ([], Some (Z.land b 0x7, 2%nat,
               (if b =? 0xF0 then 0x90 else 0x80),
               (if b =? 0xF4 then 0x8F else 0xBF)))
  else ([0xFFFD], None).

(** The UTF-8 decoder with replacement: an ill-formed sequence yields
    U+FFFD and the byte that broke it is read again as a first byte. The
    pending count is the number of continuation bytes expected after the
    next one. *)
Fixpoint utf8_decode (st : option pending) (bs : list Z) : jsstring :=
  match bs with
  | [] =>
      match st with
      | None => []
      | Some _ => [0xFFFD]
      end
  | b :: bs' =>
      match st with
      | None =>
          let '(out, st') := utf8_start b in out ++ utf8_decode st' bs'
      | Some (cp, n, lo, hi) =>
          if (lo <=? b) && (b <=? hi) then
            let cp' := cp * 64 + Z.land b 0x3F in
            match n with
            | O => to_utf16 cp' ++ utf8_decode None bs'
            | S n' => utf8_decode (Some (cp', n', 0x80, 0xBF)) bs'
            end
          else
            let '(out, st') := utf8_start b in
            0xFFFD :: out ++ utf8_decode st' bs'
      end
  end.

(** [buf.toString()]: the bytes decoded as UTF-8. *)
Definition toString (buf : Buffer) : jsstring :=
  utf8_decode None (map byte_to_Z buf).

(** The UTF-8 bytes of a code point. *)
Definition utf8_of_code_point (c : Z) : list Z :=
  if c <? 0x80 then [c]
  else if c <? 0x800 then [0xC0 + c / 64; 0x80 + c mod 64]
  else if c <? 0x10000 then
    [0xE0 + c / 4096; 0x80 + (c / 64) mod 64; 0x80 + c mod 64]
  else
    [0xF0 + c / 262144; 0x80 + (c / 4096) mod 64;
     0x80 + (c / 64) mod 64; 0x80 + c mod 64].

(** The UTF-8 encoding of a string, one byte sequence per character: a
    surrogate pair is one character, a lone surrogate is written as
    U+FFFD. *)
Fixpoint utf8_chars (s : jsstring) : list (list Z) :=
  match s with
  | [] => []
  | c :: s' =>
      if is_high_surrogate c then
        match s' with
        | d :: s'' =>
            if is_low_surrogate d then
              utf8_of_code_point
                (0x10000 + (c - 0xD800) * 1024 + (d - 0xDC00))
              :: utf8_chars s''
            else utf8_of_code_point 0xFFFD :: utf8_chars s'
        | [] => [utf8_of_code_point 0xFFFD]
        end
      else if is_low_surrogate c then
        utf8_of_code_point 0xFFFD :: utf8_chars s'
      else utf8_of_code_point c :: utf8_chars s'
  end.

Definition utf8_encode (s : jsstring) : Buffer :=
  map byte_of_Z (concat (utf8_chars s)).

(** [Buffer.byteLength(s)] *)
Definition byteLength (s : jsstring) : Z := Z.of_nat (length (utf8_encode s)).

(** The 'binary' (latin1) encoding: the low byte of every code unit. *)
Definition latin1_encode (s : jsstring) : Buffer :=
  map (fun c => byte_of_Z (Z.land c 0xFF)) s.

(** *** JSON.stringify on a string *)

Definition hex_digit (n : Z) : Z :=
  if n <? 10 then 48 + n else 87 + n.

(** The escape [\uXXXX] with lowercase digits. *)
Definition unicode_escape (c : Z) : jsstring :=
  [92; 117; hex_digit (c / 4096 mod 16); hex_digit (c / 256 mod 16);
   hex_digit (c / 16 mod 16); hex_digit (c mod 16)].

Definition quote_code_unit (c : Z) : jsstring :=
  if c =? 8 then [92; 98]
  else if c =? 9 then [92; 116]
  else if c =? 10 then [92; 110]
  else if c =? 12 then [92; 102]
  else if c =? 13 then [92; 114]
  else if c =? 34 then [92; 34]
  else if c =? 92 then [92; 92]
  else if c <? 32 then unicode_escape c
  else [c].

(** The body of a quoted string: a surrogate pair is kept, a lone
    surrogate is escaped. *)
Fixpoint quote_body (s : jsstring) : jsstring :=
  match s with
  | [] => []
  | c :: s' =>
      if is_high_surrogate c then
        match s' with
        | d :: s'' =>
            if is_low_surrogate d then c :: d :: quote_body s''
            else unicode_escape c ++ quote_body s'
        | [] => unicode_escape c
        end
      else if is_low_surrogate c then unicode_escape c ++ quote_body s'
      else quote_code_unit c ++ quote_body s'
  end.

Definition JSON_stringify (s : jsstring) : jsstring :=
  34 :: quote_body s ++ [34].

(** *** Writing into a Buffer

    The buffer is updated in place by the runtime; here every write
    returns the buffer after it. *)

(** [Buffer.alloc(size)]: [size] zero bytes. *)
Definition alloc (size : Z) : Buffer := replicate (Z.to_nat size) x00.

(** [bytes] copied into [buf] from [offset] on. *)
Definition blit (buf : Buffer) (offset : nat) (bytes : list byte) : Buffer :=
  take offset buf ++ bytes ++ drop (offset + length bytes)%nat buf.

(** [buf.writeUInt8(value, offset)]: a value outside [0, 255] or an offset
    outside the buffer raises a RangeError. *)
Definition writeUInt8 (buf : Buffer) (value offset : Z) : completion Buffer :=
  if (0 <=? value) && (value <=? 255) && (0 <=? offset)
     && (offset + 1 <=? Z.of_nat (length buf))
  then Normal (<[Z.to_nat offset := byte_of_Z value]> buf)
  else Throw RangeError.

(** [buf.writeUInt16BE(value, offset)]: the high byte first. *)
Definition writeUInt16BE (buf : Buffer) (value offset : Z) : completion Buffer :=
  if (0 <=? value) && (value <=? 65535) && (0 <=? offset)
     && (offset + 2 <=? Z.of_nat (length buf))
  then Normal (<[S (Z.to_nat offset) := byte_of_Z value]>
                 (<[Z.to_nat offset := byte_of_Z (Z.shiftr value 8)]> buf))
  else Throw RangeError.

(** The longest run of whole characters that fits in [room] bytes. *)
Fixpoint fitting (room : nat) (chars : list (list Z)) : list Z :=
  match chars with
  | [] => []
  | ch :: rest =>
      if (length ch <=? room)%nat
      then ch ++ fitting (room - length ch) rest
      else []
  end.

(** [buf.write(s, offset)]: the UTF-8 bytes of [s] from [offset] on, as
    many whole characters as fit; an offset beyond the end raises a
    RangeError. *)
Definition write (buf : Buffer) (s : jsstring) (offset : Z) : completion Buffer :=
  if (0 <=? offset) && (offset <=? Z.of_nat (length buf))
  then Normal (blit buf (Z.to_nat offset)
                 (map byte_of_Z
                    (fitting (length buf - Z.to_nat offset) (utf8_chars s))))
  else Throw RangeError.

(** *** SHA-1 (FIPS 180-4) on 32-bit words held in [Z] *)

Definition w32 (x : Z) : Z := x mod 2 ^ 32.

Definition add32 (x y : Z) : Z := w32 (x + y).

Definition rotl (n x : Z) : Z :=
  w32 (Z.lor (Z.shiftl x n) (Z.shiftr x (32 - n))).

Definition not32 (x : Z) : Z := Z.lxor x 0xFFFFFFFF.

(** The padded message: a 1 bit, zeros up to 56 mod 64 bytes, and the
    length in bits on 8 bytes, big-endian. *)
Definition be_bytes (n : nat) (x : Z) : list Z :=
  map (fun i => Z.shiftr x (8 * Z.of_nat i) mod 256) (rev (seq 0 n)).

Definition sha1_pad (msg : list Z) : list Z :=
  let len := Z.of_nat (length msg) in
  msg ++ [0x80] ++ replicate (Z.to_nat ((55 - len) mod 64)) 0
      ++ be_bytes 8 (8 * len).

(** Big-endian 32-bit words of a byte sequence. *)
Fixpoint words_of_bytes (bs : list Z) : list Z :=
  match bs with
  | b0 :: b1 :: b2 :: b3 :: rest =>
      (((b0 * 256 + b1) * 256 + b2) * 256 + b3) :: words_of_bytes rest
  | _ => []
  end.

(** The message schedule, latest word first: [n] more words after the
    16 (or more) given. *)
Fixpoint schedule (n : nat) (ws : list Z) : list Z :=
  match n with
  | O => ws
  | S n' =>
      let w i := nth i ws 0 in
      schedule n'
        (rotl 1 (Z.lxor (Z.lxor (Z.lxor (w 2%nat) (w 7%nat)) (w 13%nat)) (w 15%nat))
         :: ws)
  end.

Definition sha1_f (t : nat) (b c d : Z) : Z :=
  if (t <? 20)%nat then Z.lor (Z.land b c) (Z.land (not32 b) d)
  else if (t <? 40)%nat then Z.lxor (Z.lxor b c) d
  else if (t <? 60)%nat then
    Z.lor (Z.lor (Z.land b c) (Z.land b d)) (Z.land c d)
  else Z.lxor (Z.lxor b c) d.

Definition sha1_k (t : nat) : Z :=
  if (t <? 20)%nat then 0x5A827999
  else if (t <? 40)%nat then 0x6ED9EBA1
  else if (t <? 60)%nat then 0x8F1BBCDC
  else 0xCA62C1D6.

Definition sha1_state : Type := Z * Z * Z * Z * Z.

Definition sha1_round (st : sha1_state) (tw : nat * Z) : sha1_state :=
  let '(a, b, c, d, e) := st in
  let '(t, w) := tw in
  let temp :=
    add32 (add32 (add32 (add32 (rotl 5 a) (sha1_f t b c d)) e) (sha1_k t)) w in
  (temp, a, rotl 30 b, c, d).

Definition sha1_block (h : sha1_state) (block : list Z) : sha1_state :=
  let ws := rev (schedule 64 (rev block)) in
  let '(a, b, c, d, e) := fold_left sha1_round (zip (seq 0 80) ws) h in
  let '(h0, h1, h2, h3, h4) := h in
  (add32 h0 a, add32 h1 b, add32 h2 c, add32 h3 d, add32 h4 e).

(** The words of the padded message, sixteen at a time; [n] bounds the
    number of blocks. *)
Fixpoint sha1_blocks (n : nat) (h : sha1_state) (ws : list Z) : sha1_state :=
  match n, ws with
  | S n', _ :: _ => sha1_blocks n' (sha1_block h (take 16 ws)) (drop 16 ws)
  | _, _ => h
  end.

Definition sha1_init : sha1_state :=
  (0x67452301, 0xEFCDAB89, 0x98BADCFE, 0x10325476, 0xC3D2E1F0).

(** The 20-byte digest. *)
Definition sha1 (msg : Buffer) : Buffer :=
  let ws := words_of_bytes (sha1_pad (map byte_to_Z msg)) in
  let '(h0, h1, h2, h3, h4) := sha1_blocks (length ws) sha1_init ws in
  map byte_of_Z (flat_map (be_bytes 4) [h0; h1; h2; h3; h4]).

(** *** base64 with padding *)

Definition base64_char (n : Z) : Z :=
  if n <? 26 then 65 + n
  else if n <? 52 then 97 + (n - 26)
  else if n <? 62 then 48 + (n - 52)
  else if n =? 62 then 43
  else 47.

Fixpoint base64_bytes (bs : list Z) : jsstring :=
  match bs with
  | [] => []
  | [b0] =>
      [base64_char (b0 / 4); base64_char (b0 mod 4 * 16); 61; 61]
  | [b0; b1] =>
      [base64_char (b0 / 4); base64_char (b0 mod 4 * 16 + b1 / 16);
       base64_char (b1 mod 16 * 4); 61]
  | b0 :: b1 :: b2 :: rest =>
      [base64_char (b0 / 4); base64_char (b0 mod 4 * 16 + b1 / 16);
       base64_char (b1 mod 16 * 4 + b2 / 64); base64_char (b2 mod 64)]
      ++ base64_bytes rest
  end.

Definition base64 (buf : Buffer) : jsstring :=
  base64_bytes (map byte_to_Z buf).

(** [require('crypto').createHash('sha1').update(s, 'binary').digest('base64')] *)
Definition sha1_base64_of_binary (s : jsstring) : jsstring :=
  base64 (sha1 (latin1_encode s)).

Notation "x <- c ;; k" := (bind c (fun x => k))
  (at level 100, c at next level, right associativity).

(** [for (let i = lo; i < hi; i++) body]: the body run on
    [lo], [lo + 1], ..., [hi - 1], threading the variables it assigns. *)
Definition for_range {S : Type} (lo hi : Z) (body : S -> Z -> S) (s : S) : S :=
  fold_left body (map (fun k => lo + Z.of_nat k) (seq 0 (Z.to_nat (hi - lo)))) s.

(** [xs.forEach(body)], threading the variable the callback assigns. *)
Definition forEach {A S : Type} (xs : list A) (body : S -> A -> S) (s : S) : S :=
  fold_left body xs s.

End JS.

Import JS.

(** ** The complete variant of the class (handshake and frame codec) *)

Module Full.

(** What [#generateServerReply] hands to [socket.write]: [null], the
    handshake string, or the frame buffer. *)
Inductive reply :=
| Null
| Str (s : jsstring)
| Buf (b : Buffer).

(** [#isSocketUpgradeRequest] *)
Definition isSocketUpgradeRequest (data : Buffer) : bool :=
  let isUpgrade := false in
  forEach (split (toString data) LF)
    (fun isUpgrade headerLine =>
       if includes headerLine (lit "Upgrade: websocket") then true
       else isUpgrade)
    isUpgrade.

(** [#isHttp]: element 0 of the split; were the split empty, calling
    [includes] on [undefined] would raise a TypeError. *)
Definition isHttp (data : Buffer) : completion bool :=
  match split (toString data) LF with
  | line0 :: _ => Normal (includes line0 (lit "HTTP/1.1"))
  | [] => Throw TypeError
  end.

Definition guid : jsstring := lit "258EAFA5-E914-47DA-95CA-C5AB0DC85B11".

(** [generateServerKey], local to [#generateHandshakeMsg] *)
Definition generateServerKey (key : jsstring) : jsstring :=
  sha1_base64_of_binary (key ++ guid).

(** [#generateHandshakeMsg]; [None] is the [null] the client key starts
    as. *)
Definition generateHandshakeMsg (data : Buffer) : jsstring :=
  let msg := lit "HTTP/1.1 400 Bad Request" in
  let clientKey := None in
  let clientKey :=
    forEach (split (toString data) LF)
      (fun clientKey headerLine =>
         if startsWith headerLine (lit "Sec-WebSocket-Key:")
         then Some (slice (substr headerLine 19) 0 (-1))
         else clientKey)
      clientKey in
  match clientKey with
  | Some clientKey =>
      lit "HTTP/1.1 101 Switching Protocols" ++ [CR; LF] ++
      lit "Upgrade: websocket" ++ [CR; LF] ++
      lit "Connection: Upgrade" ++ [CR; LF] ++
      lit "Sec-WebSocket-Accept: " ++ generateServerKey clientKey
        ++ [CR; LF; CR; LF]
  | None => msg
  end.

(** [#parseMessage]. [Buffer.from(buffer)] is a copy of the chunk. The
    operator [%] is the remainder with the sign of the dividend. *)
Definition parseMessage (buffer : Buffer) : jsstring :=
  let bytes := buffer in
  let len := bitand (index bytes 1) (Some 127) in
  let maskStart := 2 in
  let dataStart := maskStart + 4 in
  let returnString := [] in
  for_range dataStart (dataStart + len)
    (fun returnString i =>
       let byte :=
         bitxor (index bytes i)
                (index bytes (maskStart + Z.rem (i - dataStart) 4)) in
       returnString ++ fromCharCode byte)
    returnString.

(** The buffer indices [#parseMessage] reads, in order. *)
Definition parseMessage_reads (buffer : Buffer) : list Z :=
  let len := bitand (index buffer 1) (Some 127) in
  1 :: for_range 6 (6 + len)
         (fun reads i => reads ++ [i; 2 + Z.rem (i - 6) 4]) [].

(** [#encodeReply]; [0x81] is the source's [0b10000001]. *)
Definition encodeReply (string : jsstring) : completion Buffer :=
  let json := JSON_stringify string in
  let jsonByteLength := byteLength json in
  let lengthByteCount := if jsonByteLength <? 126 then 0 else 2 in
  let payloadLength := if lengthByteCount =? 0 then jsonByteLength else 126 in
  let buffer := alloc (2 + lengthByteCount + jsonByteLength) in
  buffer <- writeUInt8 buffer 0x81 0 ;;
  buffer <- writeUInt8 buffer payloadLength 1 ;;
  let payloadOffset := 2 in
  written <-
    (if 0 <? lengthByteCount
     then buffer <- writeUInt16BE buffer jsonByteLength 2 ;;
          Normal (buffer, payloadOffset + lengthByteCount)
     else Normal (buffer, payloadOffset)) ;;
  let '(buffer, payloadOffset) := written in
  buffer <- write buffer json payloadOffset ;;
  Normal buffer.

(** [#generateServerReply] *)
Definition generateServerReply (data : Buffer) : completion reply :=
  let returnString := Null in
  http <- isHttp data ;;
  if http then
    if isSocketUpgradeRequest data
    then Normal (Str (generateHandshakeMsg data))
    else Normal returnString
  else
    let msg := parseMessage data in
    buffer <- encodeReply (lit "Hello from a WebSocket Server!") ;;
    Normal (Buf buffer).

(** The three branches of [#generateServerReply], named. *)
Inductive category :=
| PlainHttp
| UpgradeRequest
| DataFrame.

(** The branch [#generateServerReply] takes on a chunk. *)
Definition classify (data : Buffer) : completion category :=
  http <- isHttp data ;;
  if http then
    if isSocketUpgradeRequest data then Normal UpgradeRequest
    else Normal PlainHttp
  else Normal DataFrame.

(** The ['data'] callback the constructor registers on a socket: what it
    passes to [socket.write], if anything ([None]: no write). *)
Definition onData (data : Buffer) : completion (option reply) :=
  returnString <- generateServerReply data ;;
  match returnString with
  | Null => Normal None
  | _ => Normal (Some returnString)
  end.

End Full.

(** ** The handshake-only variant, [server/classes/WebSocketServer.js] *)

Module HandshakeOnly.

(** [#isSocketUpgradeRequest] *)
Definition isSocketUpgradeRequest (data : Buffer) : bool :=
  let isUpgrade := false in
  forEach (split (toString data) LF)
    (fun isUpgrade headerLine =>
       if includes headerLine (lit "Upgrade: websocket") then true
       else isUpgrade)
    isUpgrade.

(** [#isHttp] *)
Definition isHttp (data : Buffer) : completion bool :=
  match split (toString data) LF with
  | line0 :: _ => Normal (includes line0 (lit "HTTP/1.1"))
  | [] => Throw TypeError
  end.

Definition guid : jsstring := lit "258EAFA5-E914-47DA-95CA-C5AB0DC85B11".

(** [generateServerKey] *)
Definition generateServerKey (key : jsstring) : jsstring :=
  sha1_base64_of_binary (key ++ guid).

(** [#generateHandshakeMsg]: the lines of the reply end in a bare line
    feed and nothing follows the accept key. *)
Definition generateHandshakeMsg (data : Buffer) : jsstring :=
  let msg := lit "HTTP/1.1 400 Bad Request" in
  let clientKey := None in
  let clientKey :=
    forEach (split (toString data) LF)
      (fun clientKey headerLine =>
         if startsWith headerLine (lit "Sec-WebSocket-Key:")
         then Some (slice (substr headerLine 19) 0 (-1))
         else clientKey)
      clientKey in
  match clientKey with
  | Some clientKey =>
      lit "HTTP/1.1 101 Switching Protocols" ++ [LF] ++
      lit "Upgrade: websocket" ++ [LF] ++
      lit "Connection: Upgrade" ++ [LF] ++
      lit "Sec-WebSocket-Accept: " ++ generateServerKey clientKey
  | None => msg
  end.

(** [#generateServerReply]: [None] is [null]. *)
Definition generateServerReply (data : Buffer) : completion (option jsstring) :=
  let returnString := None in
  http <- isHttp data ;;
  if http && isSocketUpgradeRequest data
  then Normal (Some (generateHandshakeMsg data))
  else Normal returnString.

(** The ['data'] callback the constructor registers on a socket: what it
    passes to [socket.write], if anything ([None]: no write). *)
Definition onData (data : Buffer) : completion (option jsstring) :=
  returnString <- generateServerReply data ;;
  match returnString with
  | None => Normal None
  | Some _ => Normal returnString
  end.

End HandshakeOnly.

(** ** The vocabulary of the statements *)

(** [p] occurs in [s] as a contiguous run of code units. *)
Definition occurs_in (p s : jsstring) : Prop :=
  exists pre post, s = pre ++ p ++ post.

(** The lines of a list joined back with the separator between them. *)
Fixpoint join (sep : Z) (ls : list jsstring) : jsstring :=
  match ls with
  | [] => []
  | [l] => l
  | l :: ls' => l ++ sep :: join sep ls'
  end.

(** The newline-delimited lines of a chunk read as text. *)
Definition lines (data : Buffer) : list jsstring := split (toString data) LF.

Definition key_prefix : jsstring := lit "Sec-WebSocket-Key:".

(** A header line carrying the client key. *)
Definition is_key_line (line : jsstring) : Prop := key_prefix `prefix_of` line.

(** The key of a key line: the first 19 code units dropped, then the last
    one of what remains. *)
Definition key_of_line (line : jsstring) : jsstring :=
  take (length (drop 19 line) - 1) (drop 19 line).

Definition CRLF : jsstring := [CR; LF].

(** The accepting response, every line ended by CR LF and a blank line
    last. *)
Definition switching_protocols (acceptKey : jsstring) : jsstring :=
  lit "HTTP/1.1 101 Switching Protocols" ++ CRLF ++
  lit "Upgrade: websocket" ++ CRLF ++
  lit "Connection: Upgrade" ++ CRLF ++
  lit "Sec-WebSocket-Accept: " ++ acceptKey ++ CRLF ++ CRLF.

(** The response of the handshake-only variant: bare line feeds, and
    nothing after the accept key. *)
Definition switching_protocols_lf (acceptKey : jsstring) : jsstring :=
  lit "HTTP/1.1 101 Switching Protocols" ++ [LF] ++
  lit "Upgrade: websocket" ++ [LF] ++
  lit "Connection: Upgrade" ++ [LF] ++
  lit "Sec-WebSocket-Accept: " ++ acceptKey.

Definition bad_request : jsstring := lit "HTTP/1.1 400 Bad Request".

(** The bytes of an ASCII text. *)
Definition ascii_bytes (s : jsstring) : Buffer := map byte_of_Z s.

(** An upgrade request carrying the sample key of the protocol. *)
Definition sample_upgrade_request : Buffer :=
  ascii_bytes
    (lit "GET /chat HTTP/1.1" ++ CRLF ++
     lit "Host: localhost:3001" ++ CRLF ++
     lit "Upgrade: websocket" ++ CRLF ++
     lit "Connection: Upgrade" ++ CRLF ++
     lit "Sec-WebSocket-Key: dGhlIHNhbXBsZSBub25jZQ==" ++ CRLF ++
     lit "Sec-WebSocket-Version: 13" ++ CRLF ++ CRLF).

(** An upgrade request with two key lines. *)
Definition two_key_request : Buffer :=
  ascii_bytes
    (lit "GET /chat HTTP/1.1" ++ CRLF ++
     lit "Upgrade: websocket" ++ CRLF ++
     lit "Sec-WebSocket-Key: AAAAAAAAAAAAAAAAAAAAAA==" ++ CRLF ++
     lit "Sec-WebSocket-Key: dGhlIHNhbXBsZSBub25jZQ==" ++ CRLF ++ CRLF).

(** Its lines: the last key line, the lines before it and those after. *)
Definition two_key_request_before : list jsstring :=
  [lit "GET /chat HTTP/1.1" ++ [CR];
   lit "Upgrade: websocket" ++ [CR];
   lit "Sec-WebSocket-Key: AAAAAAAAAAAAAAAAAAAAAA==" ++ [CR]].

Definition two_key_request_last : jsstring :=
  lit "Sec-WebSocket-Key: dGhlIHNhbXBsZSBub25jZQ==" ++ [CR].

Definition two_key_request_after : list jsstring := [[CR]; []].
(** The payload length a data chunk declares: the low seven bits of its
    second byte (0 when the chunk has no second byte). *)
Definition declared_length (chunk : Buffer) : Z :=
  match chunk !! 1%nat with
  | Some b1 => Z.land (byte_to_Z b1) 0x7F
  | None => 0
  end.

(** The byte at an index, 0 beyond the end. *)
Definition byte_or_zero (chunk : Buffer) (i : nat) : Z :=
  match chunk !! i with
  | Some b => byte_to_Z b
  | None => 0
  end.

(** A code unit that is a single byte. *)
Definition single_byte (c : Z) : Prop := 0 <= c < 256.

(** The frame a client sends for a payload under a 4-byte mask key: 0x81,
    0x80 | length, the key, and the payload XOR-ed with the key cycled
    every 4 bytes. *)
Definition client_frame (key : list byte) (payload : jsstring) : Buffer :=
  [byte_of_Z 0x81; byte_of_Z (Z.lor 0x80 (Z.of_nat (length payload)))]
  ++ key
  ++ imap (fun i c => byte_of_Z (Z.lxor c (byte_to_Z (nth (i mod 4) key x00))))
       payload.

(** A chunk that holds as many bytes as its header declares. *)
Definition complete_frame (chunk : Buffer) : Prop :=
  6 + declared_length chunk <= Z.of_nat (length chunk).

(** Decoding [chunk] signals a malformed frame: its result is none of the
    payloads a complete frame decodes to. *)
Definition signals_malformed (chunk : Buffer) : Prop :=
  forall frame, complete_frame frame ->
    Full.parseMessage chunk <> Full.parseMessage frame.

(** Every index the decoder reads lies inside the chunk. *)
Definition reads_within (chunk : Buffer) : Prop :=
  Forall (fun i => 0 <= i < Z.of_nat (length chunk))
         (Full.parseMessage_reads chunk).

(** A chunk declaring 5 payload bytes and holding 1, and a complete frame. *)
Definition short_frame : Buffer :=
  map byte_of_Z [0x81; 0x85; 1; 2; 3; 4; 0x41].

Definition full_frame : Buffer :=
  map byte_of_Z [0x81; 0x85; 0; 0; 0; 0; 0x40; 2; 3; 4; 1].

(** The fixed reply of the server. *)
Definition hello : jsstring := lit "Hello from a WebSocket Server!".
(** The text "Hi" masked with the key 1, 2, 3, 4 and framed. *)
Definition masked_hi : Buffer :=
  map byte_of_Z [0x81; 0x82; 1; 2; 3; 4; 0x49; 0x6B].
(** The payload on the wire: the JSON-quoted text in UTF-8. *)
Definition serialized (string : jsstring) : Buffer :=
  utf8_encode (JSON_stringify string).

(** The unsigned value of a byte of a frame, if the frame has it. *)
Definition frame_byte (frame : Buffer) (i : nat) : option Z :=
  byte_to_Z <$> frame !! i.

(** A text of 200 letters. *)
Definition long_text : jsstring := replicate 200 97.
(** An HTTP request that asks for no upgrade. *)
Definition plain_request : Buffer :=
  ascii_bytes (lit "GET /index.html HTTP/1.1" ++ CRLF ++
               lit "Host: localhost:3001" ++ CRLF ++ CRLF).
(** The frame of the fixed reply: 0x81, the length 32, and the quoted
    text. *)
Definition hello_frame : Buffer :=
  byte_of_Z 0x81 :: byte_of_Z 32 :: serialized hello.

(** A printable ASCII code unit that JSON leaves as it is. *)
Definition plain_ascii (c : Z) : Prop := 32 <= c < 128 /\ c <> 34 /\ c <> 92.

(** A code unit of the base64 alphabet, or the padding sign. *)
Definition base64_unit (c : Z) : Prop :=
  65 <= c <= 90 \/ 97 <= c <= 122 \/ 48 <= c <= 57 \/
  c = 43 \/ c = 47 \/ c = 61.

(** The accept key derived from the empty key. *)
Definition empty_key_accept : jsstring := lit "Kfh9QIsMVZcl6xEPYxPHzW8SZ8w=".

(** A request whose only key line is the bare header name. *)
Definition bare_key_request : Buffer :=
  ascii_bytes
    (lit "GET /chat HTTP/1.1" ++ CRLF ++
     lit "Upgrade: websocket" ++ CRLF ++
     lit "Sec-WebSocket-Key:" ++ CRLF ++ CRLF).

(** A request whose lines end in a bare line feed. *)
Definition lf_request : Buffer :=
  ascii_bytes
    (lit "GET /chat HTTP/1.1" ++ [LF] ++
     lit "Upgrade: websocket" ++ [LF] ++
     lit "Sec-WebSocket-Key: dGhlIHNhbXBsZSBub25jZQ==X" ++ [LF] ++ [LF]).

(** The frame [masked_hi] with another first byte, the mask bit cleared,
    and bytes after its payload. *)
Definition masked_hi_variant : Buffer :=
  map byte_of_Z [0x02; 0x02; 1; 2; 3; 4; 0x49; 0x6B].

Definition trailing_bytes : Buffer := map byte_of_Z [0x81; 0x85; 9; 9].
(** The test for [plain_ascii]. *)
Definition plain_asciib (c : Z) : bool :=
  (32 <=? c) && (c <? 128) && negb (c =? 34) && negb (c =? 92).
(** An upgrade request without a key line. *)
Definition keyless_upgrade_request : Buffer :=
  ascii_bytes
    (lit "GET /chat HTTP/1.1" ++ CRLF ++
     lit "Upgrade: websocket" ++ CRLF ++
     lit "Connection: Upgrade" ++ CRLF ++ CRLF).
(** A text of 65534 letters: 65536 bytes once serialized. *)
Definition too_long_text : jsstring := replicate (Z.to_nat 65534) 97.

(** ** Facts about the runtime model *)

Section Strings.

Lemma startsWith_prefix (s p : jsstring) :
  startsWith s p = true <-> p `prefix_of` s.
Proof.
  revert s. induction p as [|c p IH]; intros s; simpl.
  - split; [intros _; apply prefix_nil | reflexivity].
  - destruct s as [|d s].
    + split; [discriminate | intros H; apply prefix_nil_inv in H; discriminate].
    + rewrite andb_true_iff, Z.eqb_eq, IH. split.
      * intros [-> H]. by apply prefix_cons.
      * intros H. split.
        -- by apply prefix_cons_inv_1 in H.
        -- by apply prefix_cons_inv_2 in H.
Qed.

Lemma startsWith_false (s p : jsstring) :
  startsWith s p = false <-> ~ p `prefix_of` s.
Proof.
  rewrite <- startsWith_prefix. destruct (startsWith s p); split; congruence.
Qed.

Lemma includes_occurs (s p : jsstring) :
  includes s p = true <-> occurs_in p s.
Proof.
  induction s as [|d s IH]; simpl.
  - rewrite orb_false_r, startsWith_prefix. split.
    + intros [t ->]. by exists [], t.
    + intros (pre & post & H). symmetry in H.
      apply app_eq_nil in H as [-> H]. apply app_eq_nil in H as [-> ->].
      apply prefix_nil.
  - rewrite orb_true_iff, IH, startsWith_prefix. split.
    + intros [[t ->] | (pre & post & ->)].
      * by exists [], t.
      * by exists (d :: pre), post.
    + intros (pre & post & H). destruct pre as [|e pre]; simpl in H.
      * left. exists post. exact H.
      * right. injection H as _ ->. by exists pre, post.
Qed.

Lemma includes_false (s p : jsstring) :
  includes s p = false <-> ~ occurs_in p s.
Proof.
  rewrite <- includes_occurs. destruct (includes s p); split; congruence.
Qed.

Lemma split_not_nil (s : jsstring) (sep : Z) : split s sep <> [].
Proof.
  destruct s as [|c s]; simpl; [discriminate |].
  destruct (c =? sep); [discriminate |].
  destruct (split s sep); discriminate.
Qed.

(** Splitting loses nothing: the pieces joined by the separator are the
    string. *)
Lemma join_split (s : jsstring) (sep : Z) : join sep (split s sep) = s.
Proof.
  induction s as [|c s IH]; simpl; [reflexivity |].
  pose proof (split_not_nil s sep) as Hne.
  destruct (Z.eqb_spec c sep) as [-> | Hc].
  - destruct (split s sep) as [|l ls] eqn:E; [congruence |].
    rewrite <- IH. reflexivity.
  - destruct (split s sep) as [|l ls] eqn:E; [congruence |].
    rewrite <- IH. by destruct ls.
Qed.

(** No piece contains the separator. *)
Lemma split_no_sep (s : jsstring) (sep : Z) :
  Forall (fun l => sep ∉ l) (split s sep).
Proof.
  induction s as [|c s IH]; simpl.
  - constructor; [apply not_elem_of_nil | constructor].
  - destruct (Z.eqb_spec c sep) as [-> | Hc].
    + constructor; [apply not_elem_of_nil | exact IH].
    + destruct (split s sep) as [|l ls].
      * constructor; [|constructor]. intros H. apply list_elem_of_singleton in H. congruence.
      * inversion IH; subst. constructor; [|assumption].
        intros H. apply elem_of_cons in H as [H | H]; [congruence | contradiction].
Qed.

Lemma substr_19 (s : jsstring) : substr s 19 = drop 19 s.
Proof.
  unfold substr. simpl. destruct (Z.min_spec 19 (Z.of_nat (length s))) as [[H ->] | [H ->]].
  - reflexivity.
  - rewrite Nat2Z.id. rewrite !drop_ge; [reflexivity | lia | lia].
Qed.

Lemma slice_0_m1 (s : jsstring) : slice s 0 (-1) = take (length s - 1) s.
Proof.
  unfold slice. simpl. rewrite Z.min_l by lia. simpl. rewrite drop_0.
  f_equal. lia.
Qed.

End Strings.

(** ** The loops of the class *)

Section ForEach.

Context {A B : Type} (P : A -> bool) (f : A -> B).

(** The callback shape of the header scans: a matching element
    overwrites the variable, any other leaves it. *)
Local Abbreviation body :=
  (fun (acc : option B) (x : A) => if P x then Some (f x) else acc).

Lemma forEach_no_match (ls : list A) (init : option B) :
  Forall (fun x => P x = false) ls -> forEach ls body init = init.
Proof.
  intros H. revert init. induction H as [|x ls Hx _ IH]; intros init.
  - reflexivity.
  - unfold forEach in *. simpl. rewrite Hx. apply IH.
Qed.

Lemma forEach_last_match (before after : list A) (x : A) (init : option B) :
  P x = true -> Forall (fun y => P y = false) after ->
  forEach (before ++ x :: after) body init = Some (f x).
Proof.
  intros Hx Hafter. unfold forEach. rewrite fold_left_app. simpl.
  rewrite Hx. by apply forEach_no_match.
Qed.

Lemma forEach_None_inv (ls : list A) (init : option B) :
  forEach ls body init = None ->
  init = None /\ Forall (fun x => P x = false) ls.
Proof.
  revert init. induction ls as [|x ls IH]; intros init H.
  - by split.
  - unfold forEach in *. simpl in H. apply IH in H as [H Hls].
    destruct (P x) eqn:Hx; [discriminate |].
    split; [assumption | by constructor].
Qed.

(** Some element matches exactly when one of them is the last to match. *)
Lemma last_match_split (ls : list A) :
  Exists (fun x => P x = true) ls ->
  exists before x after,
    ls = before ++ x :: after /\ P x = true /\
    Forall (fun y => P y = false) after.
Proof.
  induction ls as [|y ls IH]; intros H.
  - inversion H.
  - destruct (existsb P ls) eqn:E.
    + apply existsb_exists in E as (z & Hz & HPz).
      destruct IH as (before & x & after & -> & Hx & Hafter).
      { apply Exists_exists. exists z. split; [by apply list_elem_of_In | done]. }
      by exists (y :: before), x, after.
    + assert (Forall (fun z => P z = false) ls) as Hls.
      { apply Forall_forall. intros z Hz. apply list_elem_of_In in Hz.
        destruct (P z) eqn:HPz; [| reflexivity].
        assert (existsb P ls = true) by (apply existsb_exists; eauto).
        congruence. }
      inversion H as [? ? Hy | ? ? Hex]; subst.
      * by exists [], y, ls.
      * apply Exists_exists in Hex as (z & Hz & HPz).
        rewrite Forall_forall in Hls. specialize (Hls z Hz). congruence.
Qed.

End ForEach.

Section ForRange.

Context {C : Type}.

(** A loop whose body appends to its variable builds the list of what
    the body appends, in order. *)
Lemma for_range_append (lo hi : Z) (g : Z -> list C) (init : list C) :
  for_range lo hi (fun acc i => acc ++ g i) init =
  init ++ flat_map (fun k => g (lo + Z.of_nat k)) (seq 0 (Z.to_nat (hi - lo))).
Proof.
  unfold for_range. generalize (seq 0 (Z.to_nat (hi - lo))) as ks.
  intros ks. revert init. induction ks as [|k ks IH]; intros init; simpl.
  - by rewrite app_nil_r.
  - rewrite IH. by rewrite <- app_assoc.
Qed.

End ForRange.

(** ** Handshake negotiation *)

Section Handshake.

(** The header scan of [#generateHandshakeMsg], the same in both variants. *)
Local Abbreviation scan_key data :=
  (forEach (split (toString data) LF)
     (fun clientKey headerLine =>
        if startsWith headerLine (lit "Sec-WebSocket-Key:")
        then Some (slice (substr headerLine 19) 0 (-1))
        else clientKey)
     (@None jsstring)).

Lemma slice_substr_key (line : jsstring) :
  slice (substr line 19) 0 (-1) = key_of_line line.
Proof. by rewrite substr_19, slice_0_m1. Qed.

Lemma Forall_not_key_line (ls : list jsstring) :
  Forall (fun l => ~ is_key_line l) ls <->
  Forall (fun l => startsWith l (lit "Sec-WebSocket-Key:") = false) ls.
Proof.
  apply Forall_iff. intros l. symmetry. apply startsWith_false.
Qed.

Lemma scan_key_none (data : Buffer) :
  scan_key data = None <-> Forall (fun l => ~ is_key_line l) (lines data).
Proof.
  rewrite Forall_not_key_line. split.
  - intros H. by apply forEach_None_inv in H as [_ H].
  - intros H. by apply forEach_no_match.
Qed.

Lemma scan_key_last (data : Buffer) (before after : list jsstring) (line : jsstring) :
  lines data = before ++ line :: after ->
  is_key_line line ->
  Forall (fun l => ~ is_key_line l) after ->
  scan_key data = Some (key_of_line line).
Proof.
  intros Hl Hline Hafter. unfold lines in Hl. rewrite Hl.
  rewrite <- slice_substr_key.
  apply (forEach_last_match
           (fun l => startsWith l (lit "Sec-WebSocket-Key:"))
           (fun l => slice (substr l 19) 0 (-1))).
  - by apply startsWith_prefix.
  - by apply Forall_not_key_line.
Qed.

Lemma scan_key_some (data : Buffer) :
  Exists is_key_line (lines data) ->
  exists before line after,
    lines data = before ++ line :: after /\ is_key_line line /\
    Forall (fun l => ~ is_key_line l) after /\
    scan_key data = Some (key_of_line line).
Proof.
  intros H.
  destruct (last_match_split
              (fun l => startsWith l (lit "Sec-WebSocket-Key:")) (lines data))
    as (before & line & after & Hl & Hline & Hafter).
  { eapply Exists_impl; [exact H |]. intros l Hl. by apply startsWith_prefix. }
  apply startsWith_prefix in Hline. apply Forall_not_key_line in Hafter.
  exists before, line, after. repeat split; try assumption.
  by eapply scan_key_last.
Qed.

(** The two responses and the rejection differ pairwise, whatever the
    accept key: at the status code, and at the first line terminator. *)
Lemma switching_protocols_not_bad_request (k : jsstring) :
  switching_protocols k <> bad_request.
Proof. intros H. apply (f_equal (fun s => s !! 9%nat)) in H. discriminate H. Qed.

Lemma switching_protocols_lf_not_bad_request (k : jsstring) :
  switching_protocols_lf k <> bad_request.
Proof. intros H. apply (f_equal (fun s => s !! 9%nat)) in H. discriminate H. Qed.

Lemma switching_protocols_lf_not_crlf (k k' : jsstring) :
  switching_protocols_lf k <> switching_protocols k'.
Proof. intros H. apply (f_equal (fun s => s !! 32%nat)) in H. discriminate H. Qed.

(** The reply of the complete variant, by the outcome of the scan. *)
Lemma Full_generateHandshakeMsg_scan (data : Buffer) :
  Full.generateHandshakeMsg data =
  match scan_key data with
  | Some key => switching_protocols (Full.generateServerKey key)
  | None => bad_request
  end.
Proof.
  unfold Full.generateHandshakeMsg. destruct (scan_key data); reflexivity.
Qed.

(** The reply of the handshake-only variant, by the outcome of the scan. *)
Lemma HandshakeOnly_generateHandshakeMsg_scan (data : Buffer) :
  HandshakeOnly.generateHandshakeMsg data =
  match scan_key data with
  | Some key => switching_protocols_lf (HandshakeOnly.generateServerKey key)
  | None => bad_request
  end.
Proof. reflexivity. Qed.

End Handshake.

Lemma Exists_key_line_existsb (ls : list jsstring) :
  Exists is_key_line ls <->
  existsb (fun l => startsWith l key_prefix) ls = true.
Proof.
  rewrite Exists_exists, existsb_exists. split.
  - intros (l & Hin & Hl). exists l. split; [by apply list_elem_of_In |].
    by apply startsWith_prefix.
  - intros (l & Hin & Hl). exists l. split; [by apply list_elem_of_In |].
    by apply startsWith_prefix.
Qed.

(** C1: for the handshake key "dGhlIHNhbXBsZSBub25jZQ==", the accept-key
    derivation of the handshake negotiator -- base64 of the SHA-1 digest of
    the key followed by the GUID "258EAFA5-E914-47DA-95CA-C5AB0DC85B11" --
    returns the test vector "s3pPLMBiTxaQ9kYGzzhZRbK+xOo=", in both variants
    of the class. *)
Theorem accept_key_test_vector :
  (forall key,
     Full.generateServerKey key =
     base64 (sha1 (latin1_encode
                     (key ++ lit "258EAFA5-E914-47DA-95CA-C5AB0DC85B11")))) /\
  Full.generateServerKey (lit "dGhlIHNhbXBsZSBub25jZQ==") =
    lit "s3pPLMBiTxaQ9kYGzzhZRbK+xOo=" /\
  HandshakeOnly.generateServerKey (lit "dGhlIHNhbXBsZSBub25jZQ==") =
    lit "s3pPLMBiTxaQ9kYGzzhZRbK+xOo=".
Proof.
  split; [intros key; reflexivity |].
  split; vm_compute; reflexivity.
Qed.

(** In the complete variant a chunk with a key line is answered by the
    accepting response with CR LF after every line and a blank line last,
    the accept key being derived from one of the key lines. *)
Lemma Full_generateHandshakeMsg_switching (data : Buffer) :
  Exists is_key_line (lines data) ->
  exists line,
    line ∈ lines data /\ is_key_line line /\
    Full.generateHandshakeMsg data =
      lit "HTTP/1.1 101 Switching Protocols" ++ CRLF ++
      lit "Upgrade: websocket" ++ CRLF ++
      lit "Connection: Upgrade" ++ CRLF ++
      lit "Sec-WebSocket-Accept: "
        ++ Full.generateServerKey (key_of_line line) ++ CRLF ++ CRLF.
Proof.
  intros H. apply scan_key_some in H as (before & line & after & Hl & Hline & _ & Hscan).
  exists line. split; [| split; [assumption |]].
  - rewrite Hl. apply elem_of_app. right. apply elem_of_cons. by left.
  - by rewrite Full_generateHandshakeMsg_scan, Hscan.
Qed.

(** The handshake-only variant never returns that response: its lines end
    in a bare line feed and nothing follows the accept key. *)
Lemma HandshakeOnly_generateHandshakeMsg_never_crlf (data : Buffer) (acceptKey : jsstring) :
  HandshakeOnly.generateHandshakeMsg data <> switching_protocols acceptKey.
Proof.
  rewrite HandshakeOnly_generateHandshakeMsg_scan.
  destruct (forEach _ _ _) as [key |].
  - apply switching_protocols_lf_not_crlf.
  - intros H. symmetry in H. by apply switching_protocols_not_bad_request in H.
Qed.

(** C2, at the failing input: on an upgrade request with the key line
    "Sec-WebSocket-Key: dGhlIHNhbXBsZSBub25jZQ==" the complete variant
    returns the response with CR LF line ends and the closing blank line,
    and the handshake-only variant returns the four lines separated by bare
    line feeds with nothing after the accept key, which is not that
    response. *)
Theorem handshake_only_response_unterminated :
  Exists is_key_line (lines sample_upgrade_request) /\
  Full.generateHandshakeMsg sample_upgrade_request =
    lit "HTTP/1.1 101 Switching Protocols" ++ CRLF ++
    lit "Upgrade: websocket" ++ CRLF ++
    lit "Connection: Upgrade" ++ CRLF ++
    lit "Sec-WebSocket-Accept: " ++ lit "s3pPLMBiTxaQ9kYGzzhZRbK+xOo="
      ++ CRLF ++ CRLF /\
  HandshakeOnly.generateHandshakeMsg sample_upgrade_request =
    lit "HTTP/1.1 101 Switching Protocols" ++ [LF] ++
    lit "Upgrade: websocket" ++ [LF] ++
    lit "Connection: Upgrade" ++ [LF] ++
    lit "Sec-WebSocket-Accept: " ++ lit "s3pPLMBiTxaQ9kYGzzhZRbK+xOo=" /\
  HandshakeOnly.generateHandshakeMsg sample_upgrade_request <>
    lit "HTTP/1.1 101 Switching Protocols" ++ CRLF ++
    lit "Upgrade: websocket" ++ CRLF ++
    lit "Connection: Upgrade" ++ CRLF ++
    lit "Sec-WebSocket-Accept: " ++ lit "s3pPLMBiTxaQ9kYGzzhZRbK+xOo="
      ++ CRLF ++ CRLF.
Proof.
  split; [apply Exists_key_line_existsb; vm_compute; reflexivity |].
  split; [vm_compute; reflexivity |].
  split; [vm_compute; reflexivity |].
  apply (HandshakeOnly_generateHandshakeMsg_never_crlf
           sample_upgrade_request (lit "s3pPLMBiTxaQ9kYGzzhZRbK+xOo=")).
Qed.

(** C3: a chunk in which no line starts with "Sec-WebSocket-Key:" is
    answered by the literal string "HTTP/1.1 400 Bad Request", a returned
    value; and that string is returned for no other chunk, so the missing
    key is the only failure of the negotiation. Both variants. *)
Theorem missing_key_bad_request (data : Buffer) :
  (Forall (fun line => ~ is_key_line line) (lines data) <->
   Full.generateHandshakeMsg data = lit "HTTP/1.1 400 Bad Request") /\
  (Forall (fun line => ~ is_key_line line) (lines data) <->
   HandshakeOnly.generateHandshakeMsg data = lit "HTTP/1.1 400 Bad Request").
Proof.
  rewrite <- scan_key_none.
  rewrite Full_generateHandshakeMsg_scan, HandshakeOnly_generateHandshakeMsg_scan.
  destruct (forEach _ _ _) as [key |]; split; split; intros H;
    first [ reflexivity | discriminate H
          | by apply switching_protocols_not_bad_request in H
          | by apply switching_protocols_lf_not_bad_request in H ].
Qed.

(** C10: when several lines of the chunk start with "Sec-WebSocket-Key:",
    the accept key is derived from the last of them: whatever lines come
    before it, a key line followed by no other key line decides the
    response. Both variants. *)
Theorem last_key_line_wins (data : Buffer) (before after : list jsstring) (line : jsstring) :
  lines data = before ++ line :: after ->
  is_key_line line ->
  Forall (fun l => ~ is_key_line l) after ->
  Full.generateHandshakeMsg data =
    switching_protocols (Full.generateServerKey (key_of_line line)) /\
  HandshakeOnly.generateHandshakeMsg data =
    switching_protocols_lf (HandshakeOnly.generateServerKey (key_of_line line)).
Proof.
  intros Hl Hline Hafter.
  rewrite Full_generateHandshakeMsg_scan, HandshakeOnly_generateHandshakeMsg_scan.
  by rewrite (scan_key_last data before after line Hl Hline Hafter).
Qed.

(** The request with the key lines "AAAAAAAAAAAAAAAAAAAAAA==" and then
    "dGhlIHNhbXBsZSBub25jZQ==" is answered from the second. *)
Lemma last_key_line_wins_witness :
  Exists is_key_line two_key_request_before /\
  key_of_line two_key_request_last = lit "dGhlIHNhbXBsZSBub25jZQ==" /\
  Full.generateHandshakeMsg two_key_request =
    switching_protocols
      (Full.generateServerKey (key_of_line two_key_request_last)) /\
  HandshakeOnly.generateHandshakeMsg two_key_request =
    switching_protocols_lf
      (HandshakeOnly.generateServerKey (key_of_line two_key_request_last)).
Proof.
  split; [apply Exists_key_line_existsb; vm_compute; reflexivity |].
  split; [vm_compute; reflexivity |].
  apply (last_key_line_wins two_key_request
           two_key_request_before two_key_request_after two_key_request_last).
  - vm_compute; reflexivity.
  - apply startsWith_prefix. vm_compute; reflexivity.
  - apply Forall_not_key_line. repeat constructor.
Defined.

(** ** Classification *)

Lemma forEach_flag {A : Type} (P : A -> bool) (ls : list A) (init : bool) :
  forEach ls (fun flag x => if P x then true else flag) init =
  init || existsb P ls.
Proof.
  unfold forEach. revert init. induction ls as [|x ls IH]; intros init; simpl.
  - by rewrite orb_false_r.
  - rewrite IH. destruct (P x), init; reflexivity.
Qed.

Lemma isSocketUpgradeRequest_Exists (data : Buffer) :
  Full.isSocketUpgradeRequest data = true <->
  Exists (occurs_in (lit "Upgrade: websocket")) (lines data).
Proof.
  unfold Full.isSocketUpgradeRequest.
  rewrite (forEach_flag (fun l => includes l (lit "Upgrade: websocket"))).
  simpl orb. rewrite existsb_exists, Exists_exists. split.
  - intros (l & Hin & Hl). exists l. split; [by apply list_elem_of_In |].
    by apply includes_occurs.
  - intros (l & Hin & Hl). exists l. split; [by apply list_elem_of_In |].
    by apply includes_occurs.
Qed.

Lemma isHttp_first_line (data : Buffer) (first : jsstring) (rest : list jsstring) :
  lines data = first :: rest ->
  Full.isHttp data = Normal (includes first (lit "HTTP/1.1")).
Proof. unfold lines, Full.isHttp. by intros ->. Qed.

Lemma lines_first (data : Buffer) : exists first rest, lines data = first :: rest.
Proof.
  unfold lines. pose proof (split_not_nil (toString data) LF) as H.
  destruct (split (toString data) LF) as [|first rest]; [congruence | eauto].
Qed.

(** C4: if the first newline-delimited line of the chunk contains
    "HTTP/1.1" and some line contains "Upgrade: websocket", the chunk is an
    upgrade request; if the first line contains "HTTP/1.1" and no line
    contains "Upgrade: websocket", it is plain HTTP; if the first line does
    not contain "HTTP/1.1", it is a data frame. The chunk always has a first
    line, and the classification is one of the three categories, never an
    exception. *)
Theorem classify_correct (data : Buffer) :
  exists first rest category,
    lines data = first :: rest /\
    Full.classify data = Normal category /\
    (occurs_in (lit "HTTP/1.1") first /\
     Exists (occurs_in (lit "Upgrade: websocket")) (lines data) ->
     category = Full.UpgradeRequest) /\
    (occurs_in (lit "HTTP/1.1") first /\
     ~ Exists (occurs_in (lit "Upgrade: websocket")) (lines data) ->
     category = Full.PlainHttp) /\
    (~ occurs_in (lit "HTTP/1.1") first ->
     category = Full.DataFrame).
Proof.
  destruct (lines_first data) as (first & rest & Hl).
  exists first, rest. unfold Full.classify.
  rewrite (isHttp_first_line data first rest Hl). cbn [bind].
  pose proof (includes_occurs first (lit "HTTP/1.1")) as Hhttp.
  pose proof (isSocketUpgradeRequest_Exists data) as Hup.
  destruct (includes first (lit "HTTP/1.1")) eqn:E1;
    [destruct (Full.isSocketUpgradeRequest data) eqn:E2 |];
    eexists; (split; [exact Hl |]); (split; [reflexivity |]).
  - split; [done |]. split; [| intros Hn; exfalso; apply Hn; by apply Hhttp].
    intros [_ Hn]. exfalso. apply Hn. by apply Hup.
  - split; [| split; [done |]].
    + intros [_ Hex]. apply Hup in Hex. discriminate Hex.
    + intros Hn. exfalso. apply Hn. by apply Hhttp.
  - split; [| split; [| done]].
    + intros [Hocc _]. apply Hhttp in Hocc. discriminate Hocc.
    + intros [Hocc _]. apply Hhttp in Hocc. discriminate Hocc.
Qed.

(** The reply of [#generateServerReply], by the category of the chunk: the
    handshake response, nothing, or the frame of the fixed reply. *)
Lemma generateServerReply_by_category (data : Buffer) :
  Full.generateServerReply data =
  bind (Full.classify data) (fun category =>
    match category with
    | Full.UpgradeRequest => Normal (Full.Str (Full.generateHandshakeMsg data))
    | Full.PlainHttp => Normal Full.Null
    | Full.DataFrame =>
        bind (Full.encodeReply (lit "Hello from a WebSocket Server!"))
             (fun buffer => Normal (Full.Buf buffer))
    end).
Proof.
  unfold Full.generateServerReply, Full.classify.
  destruct (Full.isHttp data) as [[|] | e]; cbn [bind]; [| reflexivity | reflexivity].
  destruct (Full.isSocketUpgradeRequest data); reflexivity.
Qed.

(** ** Bytes and bit operations *)

Lemma byte_to_Z_range (b : byte) : 0 <= byte_to_Z b < 256.
Proof.
  unfold byte_to_Z. pose proof (Byte.to_N_bounded b). lia.
Qed.

Lemma byte_to_of_Z (z : Z) : byte_to_Z (byte_of_Z z) = z mod 256.
Proof.
  unfold byte_to_Z, byte_of_Z.
  pose proof (Z.mod_pos_bound z 256 ltac:(lia)) as Hr.
  destruct (Byte.of_N (Z.to_N (z mod 256))) as [b |] eqn:E.
  - apply Byte.to_of_N in E. rewrite E. lia.
  - apply Byte.of_N_None_iff in E. lia.
Qed.

Lemma byte_to_of_Z_small (z : Z) : 0 <= z < 256 -> byte_to_Z (byte_of_Z z) = z.
Proof. intros H. rewrite byte_to_of_Z. by apply Z.mod_small. Qed.

Lemma byte_of_to_Z (b : byte) : byte_of_Z (byte_to_Z b) = b.
Proof.
  unfold byte_of_Z. rewrite Z.mod_small by apply byte_to_Z_range.
  unfold byte_to_Z. rewrite N2Z.id. by rewrite Byte.of_to_N.
Qed.

Lemma lxor_range (a b n : Z) :
  0 <= n -> 0 <= a < 2 ^ n -> 0 <= b < 2 ^ n -> 0 <= Z.lxor a b < 2 ^ n.
Proof.
  intros Hn Ha Hb.
  assert (0 <= Z.lxor a b) as Hnn by (apply Z.lxor_nonneg; lia).
  split; [assumption |].
  destruct (Z.eq_dec (Z.lxor a b) 0) as [-> | Hne]; [lia |].
  apply Z.log2_lt_pow2; [lia |].
  destruct (Z.eq_dec a 0) as [-> | Ha0].
  - rewrite Z.lxor_0_l in *. apply Z.log2_lt_pow2; lia.
  - destruct (Z.eq_dec b 0) as [-> | Hb0].
    + rewrite Z.lxor_0_r in *. apply Z.log2_lt_pow2; lia.
    + pose proof (Z.log2_lxor a b ltac:(lia) ltac:(lia)) as Hl.
      assert (Z.log2 a < n) by (apply Z.log2_lt_pow2; lia).
      assert (Z.log2 b < n) by (apply Z.log2_lt_pow2; lia).
      lia.
Qed.

Lemma lxor_byte_range (a b : Z) :
  0 <= a < 256 -> 0 <= b < 256 -> 0 <= Z.lxor a b < 256.
Proof. apply (lxor_range a b 8). lia. Qed.

Lemma lxor_cancel_r (a b : Z) : Z.lxor (Z.lxor a b) b = a.
Proof. by rewrite Z.lxor_assoc, Z.lxor_nilpotent, Z.lxor_0_r. Qed.

(** The length byte of a client frame gives the length back. *)
Lemma land_lor_mask_bit (n : Z) : 0 <= n < 128 -> Z.land (Z.lor 0x80 n) 0x7F = n.
Proof.
  intros H. rewrite Z.land_lor_distr_l.
  change (Z.land 0x80 0x7F) with 0. rewrite Z.lor_0_l.
  change 0x7F with (Z.ones 7). rewrite Z.land_ones by lia.
  apply Z.mod_small. simpl. lia.
Qed.

Lemma length_byte_roundtrip (n : Z) :
  0 <= n < 128 -> Z.land (byte_to_Z (byte_of_Z (Z.lor 0x80 n))) 0x7F = n.
Proof.
  intros H. rewrite byte_to_of_Z.
  change 256 with (2 ^ 8). rewrite <- Z.land_ones by lia.
  rewrite <- Z.land_assoc. change (Z.land (Z.ones 8) 0x7F) with 0x7F.
  by apply land_lor_mask_bit.
Qed.

Lemma index_of_nat (buf : Buffer) (n : nat) :
  index buf (Z.of_nat n) = byte_to_Z <$> buf !! n.
Proof.
  unfold index. destruct (Z.ltb_spec (Z.of_nat n) 0); [lia |].
  by rewrite Nat2Z.id.
Qed.

Lemma toInt32_index (buf : Buffer) (n : nat) :
  toInt32 (index buf (Z.of_nat n)) = byte_or_zero buf n.
Proof.
  rewrite index_of_nat. unfold byte_or_zero. by destruct (buf !! n).
Qed.

Lemma byte_or_zero_range (buf : Buffer) (n : nat) : 0 <= byte_or_zero buf n < 256.
Proof.
  unfold byte_or_zero. destruct (buf !! n) as [b |]; [apply byte_to_Z_range | lia].
Qed.

(** ** The frame decoder *)

Lemma lookup_map {A B : Type} (f : A -> B) (l : list A) (i : nat) :
  map f l !! i = f <$> l !! i.
Proof.
  revert i. induction l as [|x l IH]; intros [|i]; simpl; auto.
Qed.

Lemma declared_length_bitand (chunk : Buffer) :
  bitand (index chunk 1) (Some 127) = declared_length chunk.
Proof.
  unfold bitand, declared_length. change 1 with (Z.of_nat 1).
  rewrite index_of_nat. by destruct (chunk !! 1%nat).
Qed.

Lemma declared_length_range (chunk : Buffer) : 0 <= declared_length chunk < 128.
Proof.
  unfold declared_length. destruct (chunk !! 1%nat) as [b |]; [| lia].
  change 0x7F with (Z.ones 7). rewrite Z.land_ones by lia.
  apply Z.mod_pos_bound. reflexivity.
Qed.

(** One turn of the loop of [#parseMessage], at payload position [k]. *)
Lemma parseMessage_step (chunk : Buffer) (k : nat) :
  fromCharCode
    (bitxor (index chunk (2 + 4 + Z.of_nat k))
            (index chunk (2 + Z.rem (2 + 4 + Z.of_nat k - (2 + 4)) 4))) =
  [Z.lxor (byte_or_zero chunk (6 + k)) (byte_or_zero chunk (2 + k mod 4))].
Proof.
  replace (2 + 4 + Z.of_nat k - (2 + 4)) with (Z.of_nat k) by lia.
  rewrite Z.rem_mod_nonneg by lia.
  replace (2 + 4 + Z.of_nat k) with (Z.of_nat (6 + k)) by lia.
  replace (2 + Z.of_nat k mod 4) with (Z.of_nat (2 + k mod 4))
    by (rewrite Nat2Z.inj_add, Nat2Z.inj_mod; reflexivity).
  unfold bitxor, fromCharCode. rewrite !toInt32_index. f_equal.
  apply Z.mod_small.
  pose proof (lxor_byte_range _ _ (byte_or_zero_range chunk (6 + k))
                (byte_or_zero_range chunk (2 + k mod 4))).
  lia.
Qed.

(** The decoder, position by position: a byte beyond the end of the chunk
    counts as 0. *)
Lemma parseMessage_map (chunk : Buffer) :
  Full.parseMessage chunk =
  map (fun k => Z.lxor (byte_or_zero chunk (6 + k)) (byte_or_zero chunk (2 + k mod 4)))
      (seq 0 (Z.to_nat (declared_length chunk))).
Proof.
  unfold Full.parseMessage. rewrite for_range_append, declared_length_bitand.
  cbn [app].
  replace (2 + 4 + declared_length chunk - (2 + 4)) with (declared_length chunk) by lia.
  induction (seq 0 (Z.to_nat (declared_length chunk))) as [|k ks IH]; [reflexivity |].
  cbn [flat_map map]. rewrite IH, parseMessage_step. reflexivity.
Qed.

Lemma parseMessage_length (chunk : Buffer) :
  Z.of_nat (length (Full.parseMessage chunk)) = declared_length chunk.
Proof.
  rewrite parseMessage_map, length_map, length_seq.
  pose proof (declared_length_range chunk). lia.
Qed.

Lemma parseMessage_lookup (chunk : Buffer) (i : nat) :
  Z.of_nat i < declared_length chunk ->
  Full.parseMessage chunk !! i =
  Some (Z.lxor (byte_or_zero chunk (6 + i)) (byte_or_zero chunk (2 + i mod 4))).
Proof.
  intros H. rewrite parseMessage_map, lookup_map.
  rewrite lookup_seq_lt by lia. reflexivity.
Qed.

(** The indices read: index 1, then for each payload position the data
    byte and the key byte. *)
Lemma parseMessage_reads_data (chunk : Buffer) (i : nat) :
  Z.of_nat i < declared_length chunk ->
  Z.of_nat (6 + i) ∈ Full.parseMessage_reads chunk.
Proof.
  intros H. unfold Full.parseMessage_reads.
  rewrite for_range_append, declared_length_bitand. cbn [app].
  apply elem_of_cons. right.
  apply list_elem_of_In, in_flat_map. exists i. split.
  - apply in_seq. lia.
  - left. lia.
Qed.

(** C5: for a chunk of at least 6 + L bytes, where L is the low seven
    bits of its second byte, the decoded payload has exactly L code units
    and its i-th one is the byte at 6 + i XOR the byte at 2 + (i mod 4),
    the four key bytes at 2..5 being used cyclically; each is a single
    byte value. *)
Theorem parseMessage_unmasks (chunk : Buffer) (b1 : byte) (L : nat) :
  chunk !! 1%nat = Some b1 ->
  Z.of_nat L = Z.land (byte_to_Z b1) 0x7F ->
  (6 + L <= length chunk)%nat ->
  length (Full.parseMessage chunk) = L /\
  forall i, (i < L)%nat ->
    exists d k,
      chunk !! (6 + i)%nat = Some d /\
      chunk !! (2 + i mod 4)%nat = Some k /\
      Full.parseMessage chunk !! i =
        Some (Z.lxor (byte_to_Z d) (byte_to_Z k)) /\
      single_byte (Z.lxor (byte_to_Z d) (byte_to_Z k)).
Proof.
  intros Hb1 HL Hlen.
  assert (declared_length chunk = Z.of_nat L) as Hdl
    by (unfold declared_length; by rewrite Hb1).
  split.
  - pose proof (parseMessage_length chunk). lia.
  - intros i Hi.
    destruct (lookup_lt_is_Some_2 chunk (6 + i)) as [d Hd]; [lia |].
    pose proof (Nat.mod_upper_bound i 4 ltac:(lia)) as Hm.
    destruct (lookup_lt_is_Some_2 chunk (2 + i mod 4)) as [k Hk]; [lia |].
    exists d, k. split; [assumption |]. split; [assumption |].
    rewrite parseMessage_lookup by lia.
    unfold byte_or_zero. rewrite Hd, Hk. split; [reflexivity |].
    apply lxor_byte_range; apply byte_to_Z_range.
Qed.

(** The masked text "Hi": two code units, the bytes 0x49 and 0x6B XOR-ed
    with the key bytes 1 and 2. *)
Lemma parseMessage_unmasks_witness :
  Full.parseMessage masked_hi = lit "Hi" /\
  length (Full.parseMessage masked_hi) = 2%nat /\
  forall i, (i < 2)%nat ->
    exists d k,
      masked_hi !! (6 + i)%nat = Some d /\
      masked_hi !! (2 + i mod 4)%nat = Some k /\
      Full.parseMessage masked_hi !! i =
        Some (Z.lxor (byte_to_Z d) (byte_to_Z k)) /\
      single_byte (Z.lxor (byte_to_Z d) (byte_to_Z k)).
Proof.
  split; [vm_compute; reflexivity |].
  apply (parseMessage_unmasks masked_hi (byte_of_Z 0x82) 2).
  - reflexivity.
  - reflexivity.
  - simpl. lia.
Defined.

Section RoundTrip.

Context (k0 k1 k2 k3 : byte).

Local Abbreviation key := [k0; k1; k2; k3].

Lemma client_frame_declared_length (payload : jsstring) :
  (length payload < 126)%nat ->
  declared_length (client_frame key payload) = Z.of_nat (length payload).
Proof.
  intros H. unfold declared_length, client_frame. cbn [app lookup list_lookup].
  apply length_byte_roundtrip. lia.
Qed.

Lemma client_frame_key_byte (payload : jsstring) (i : nat) :
  byte_or_zero (client_frame key payload) (2 + i mod 4) =
  byte_to_Z (nth (i mod 4) key x00).
Proof.
  pose proof (Nat.mod_upper_bound i 4 ltac:(lia)) as Hm.
  unfold byte_or_zero, client_frame.
  destruct (i mod 4)%nat as [|[|[|[|j]]]]; try reflexivity. lia.
Qed.

Lemma client_frame_data_byte (payload : jsstring) (i : nat) (c : Z) :
  payload !! i = Some c ->
  byte_or_zero (client_frame key payload) (6 + i) =
  byte_to_Z (byte_of_Z (Z.lxor c (byte_to_Z (nth (i mod 4) key x00)))).
Proof.
  intros Hc. unfold byte_or_zero, client_frame.
  rewrite app_assoc, lookup_app_r by (simpl; lia).
  replace (6 + i - _)%nat with i by (simpl; lia).
  rewrite list_lookup_imap, Hc. reflexivity.
Qed.

(** The decoder undoes the client's masking. *)
Lemma client_frame_decoded (payload : jsstring) :
  (length payload < 126)%nat ->
  Forall single_byte payload ->
  Full.parseMessage (client_frame key payload) = payload.
Proof.
  intros Hlen Hbytes. apply list_eq. intros i.
  destruct (payload !! i) as [c |] eqn:Hc.
  - assert (i < length payload)%nat as Hi by (by eapply lookup_lt_Some).
    rewrite parseMessage_lookup
      by (rewrite client_frame_declared_length by assumption; lia).
    rewrite (client_frame_data_byte payload i c Hc), client_frame_key_byte.
    assert (single_byte c) as Hsc
      by (rewrite Forall_forall in Hbytes; apply Hbytes;
          by eapply list_elem_of_lookup_2).
    rewrite byte_to_of_Z_small
      by (apply lxor_byte_range; [exact Hsc | apply byte_to_Z_range]).
    by rewrite lxor_cancel_r.
  - apply lookup_ge_None in Hc. apply lookup_ge_None.
    pose proof (parseMessage_length (client_frame key payload)) as Hl.
    rewrite client_frame_declared_length in Hl by assumption. lia.
Qed.

End RoundTrip.

(** C6: for a payload of fewer than 126 code units, each a single byte,
    and a mask key of 4 bytes, decoding the client frame -- 0x81,
    0x80 | length, the key, the payload XOR-ed with the key cycled every
    4 bytes -- gives the payload back. *)
Theorem client_frame_round_trip (key : list byte) (payload : jsstring) :
  length key = 4%nat ->
  (length payload < 126)%nat ->
  Forall single_byte payload ->
  Full.parseMessage (client_frame key payload) = payload.
Proof.
  intros Hkey Hlen Hbytes.
  destruct key as [|k0 [|k1 [|k2 [|k3 [|k4 key]]]]]; try discriminate Hkey.
  by apply client_frame_decoded.
Qed.

(** The text "Hello" under the key 0x37, 0xFA, 0x21, 0x3D. *)
Lemma client_frame_round_trip_witness :
  client_frame (map byte_of_Z [0x37; 0xFA; 0x21; 0x3D]) (lit "Hello") =
    map byte_of_Z [0x81; 0x85; 0x37; 0xFA; 0x21; 0x3D;
                   0x7F; 0x9F; 0x4D; 0x51; 0x58] /\
  Full.parseMessage
    (client_frame (map byte_of_Z [0x37; 0xFA; 0x21; 0x3D]) (lit "Hello")) =
  lit "Hello".
Proof.
  split; [vm_compute; reflexivity |].
  apply (client_frame_round_trip
           (map byte_of_Z [0x37; 0xFA; 0x21; 0x3D]) (lit "Hello")).
  - reflexivity.
  - simpl. lia.
  - repeat constructor; vm_compute; congruence.
Defined.

(** The chunk declaring 5 payload bytes and holding 1 is decoded like a
    complete frame. *)
Lemma short_frame_facts :
  declared_length short_frame = 5 /\
  length short_frame = 7%nat /\
  complete_frame full_frame /\
  Full.parseMessage short_frame = [0x40; 2; 3; 4; 1] /\
  Full.parseMessage full_frame = [0x40; 2; 3; 4; 1] /\
  Full.parseMessage_reads short_frame = [1; 6; 2; 7; 3; 8; 4; 9; 5; 10; 2].
Proof.
  repeat split; try (vm_compute; reflexivity).
  unfold complete_frame. vm_compute. discriminate.
Qed.

(** C8, as stated, fails on the chunk 81 85 01 02 03 04 41, which declares
    5 payload bytes and holds 1: the decoder returns the five code units
    0x40, 2, 3, 4, 1, the very payload of a complete frame, so nothing
    marks the chunk as malformed; and it reads the indices 7 to 10, beyond
    the last byte of the chunk. *)
Lemma short_frame_decoded_as_payload :
  Z.of_nat (length short_frame) < 6 + declared_length short_frame /\
  Full.parseMessage short_frame = [0x40; 2; 3; 4; 1] /\
  ~ signals_malformed short_frame /\
  ~ reads_within short_frame.
Proof.
  destruct short_frame_facts as (HL & Hlen & Hfull & Hshort & Hpm & Hreads).
  split; [rewrite HL, Hlen; lia |]. split; [exact Hshort |]. split.
  - intros H. apply (H full_frame Hfull). by rewrite Hshort, Hpm.
  - unfold reads_within. rewrite Forall_forall. intros H.
    specialize (H 7). rewrite Hreads, Hlen in H.
    assert (0 <= 7 < Z.of_nat 7); [| lia].
    apply H. repeat (first [apply list_elem_of_here | apply list_elem_of_further]).
Qed.

(** C8, amended: for a chunk shorter than 6 + L bytes, L being its
    declared payload length, the decoder raises nothing and returns a
    string of exactly L code units; a byte beyond the end of the chunk
    reads as [undefined] and counts as 0, so the i-th code unit is
    (byte at 6 + i, or 0) XOR (byte at 2 + i mod 4, or 0), and where the
    data byte is missing it is the key byte alone; these indices beyond
    the end are among those the decoder reads. *)
Theorem parseMessage_short_chunk (chunk : Buffer) (L : nat) :
  Z.of_nat L = declared_length chunk ->
  (length chunk < 6 + L)%nat ->
  length (Full.parseMessage chunk) = L /\
  (forall i, (i < L)%nat ->
     Full.parseMessage chunk !! i =
       Some (Z.lxor (byte_or_zero chunk (6 + i))
                    (byte_or_zero chunk (2 + i mod 4)))) /\
  (forall i, (i < L)%nat -> (length chunk <= 6 + i)%nat ->
     index chunk (Z.of_nat (6 + i)) = None /\
     Z.of_nat (6 + i) ∈ Full.parseMessage_reads chunk /\
     Full.parseMessage chunk !! i = Some (byte_or_zero chunk (2 + i mod 4))).
Proof.
  intros HL Hshort. split; [| split].
  - pose proof (parseMessage_length chunk). lia.
  - intros i Hi. apply parseMessage_lookup. lia.
  - intros i Hi Hout.
    assert (chunk !! (6 + i)%nat = None) as Hnone by (apply lookup_ge_None; lia).
    split; [by rewrite index_of_nat, Hnone |].
    split; [apply parseMessage_reads_data; lia |].
    rewrite parseMessage_lookup by lia.
    unfold byte_or_zero at 1. rewrite Hnone. by rewrite Z.lxor_0_l.
Qed.

(** On the chunk 81 85 01 02 03 04 41: five code units, the last four
    being the key bytes 2, 3, 4, 1. *)
Lemma parseMessage_short_chunk_witness :
  length (Full.parseMessage short_frame) = 5%nat /\
  (forall i, (i < 5)%nat ->
     Full.parseMessage short_frame !! i =
       Some (Z.lxor (byte_or_zero short_frame (6 + i))
                    (byte_or_zero short_frame (2 + i mod 4)))) /\
  (forall i, (i < 5)%nat -> (length short_frame <= 6 + i)%nat ->
     index short_frame (Z.of_nat (6 + i)) = None /\
     Z.of_nat (6 + i) ∈ Full.parseMessage_reads short_frame /\
     Full.parseMessage short_frame !! i =
       Some (byte_or_zero short_frame (2 + i mod 4))).
Proof.
  apply (parseMessage_short_chunk short_frame 5).
  - reflexivity.
  - simpl. lia.
Defined.

(** The reply to a data frame does not depend on what the decoder made of
    it: the decoded text is logged and the fixed reply is sent. *)
Lemma generateServerReply_data_frame (data : Buffer) :
  Full.classify data = Normal Full.DataFrame ->
  Full.generateServerReply data =
  bind (Full.encodeReply hello) (fun buffer => Normal (Full.Buf buffer)).
Proof.
  intros H. by rewrite generateServerReply_by_category, H.
Qed.

(** ** The frame encoder *)

Lemma writeUInt8_ok (buf : Buffer) (value offset : Z) :
  0 <= value <= 255 -> 0 <= offset < Z.of_nat (length buf) ->
  writeUInt8 buf value offset =
  Normal (<[Z.to_nat offset := byte_of_Z value]> buf).
Proof.
  intros Hv Ho. unfold writeUInt8.
  replace (0 <=? value) with true by (symmetry; apply Z.leb_le; lia).
  replace (value <=? 255) with true by (symmetry; apply Z.leb_le; lia).
  replace (0 <=? offset) with true by (symmetry; apply Z.leb_le; lia).
  replace (offset + 1 <=? Z.of_nat (length buf)) with true
    by (symmetry; apply Z.leb_le; lia).
  reflexivity.
Qed.

Lemma writeUInt16BE_ok (buf : Buffer) (value offset : Z) :
  0 <= value <= 65535 -> 0 <= offset -> offset + 2 <= Z.of_nat (length buf) ->
  writeUInt16BE buf value offset =
  Normal (<[S (Z.to_nat offset) := byte_of_Z value]>
            (<[Z.to_nat offset := byte_of_Z (Z.shiftr value 8)]> buf)).
Proof.
  intros Hv Ho Hl. unfold writeUInt16BE.
  replace (0 <=? value) with true by (symmetry; apply Z.leb_le; lia).
  replace (value <=? 65535) with true by (symmetry; apply Z.leb_le; lia).
  replace (0 <=? offset) with true by (symmetry; apply Z.leb_le; lia).
  replace (offset + 2 <=? Z.of_nat (length buf)) with true
    by (symmetry; apply Z.leb_le; lia).
  reflexivity.
Qed.

(** A value beyond 16 bits is refused. *)
Lemma writeUInt16BE_out_of_range (buf : Buffer) (value offset : Z) :
  65535 < value -> writeUInt16BE buf value offset = Throw RangeError.
Proof.
  intros Hv. unfold writeUInt16BE.
  replace (value <=? 65535) with false by (symmetry; apply Z.leb_gt; lia).
  by rewrite andb_false_r.
Qed.

(** When everything fits, everything is written. *)
Lemma fitting_all (chars : list (list Z)) (room : nat) :
  (length (concat chars) <= room)%nat -> fitting room chars = concat chars.
Proof.
  revert room. induction chars as [|ch rest IH]; intros room H; [reflexivity |].
  cbn [fitting concat] in *. rewrite length_app in H.
  replace (length ch <=? room)%nat with true by (symmetry; apply Nat.leb_le; lia).
  rewrite IH by lia. reflexivity.
Qed.

(** A string written where exactly its bytes remain fills the buffer to
    its end. *)
Lemma write_exact (buf : Buffer) (s : jsstring) (offset : nat) :
  (offset + length (utf8_encode s) = length buf)%nat ->
  write buf s (Z.of_nat offset) = Normal (take offset buf ++ utf8_encode s).
Proof.
  intros H. unfold write.
  replace (0 <=? Z.of_nat offset) with true by (symmetry; apply Z.leb_le; lia).
  replace (Z.of_nat offset <=? Z.of_nat (length buf)) with true
    by (symmetry; apply Z.leb_le; lia).
  cbn [andb]. rewrite Nat2Z.id. unfold utf8_encode in *.
  rewrite length_map in H. rewrite fitting_all by lia.
  unfold blit. rewrite length_map, drop_ge by lia. by rewrite app_nil_r.
Qed.

Section EncodeReply.

Context (string : jsstring).

Local Abbreviation payload := (utf8_encode (JSON_stringify string)).

(** The short form: two header bytes, then the serialized payload. *)
Lemma encodeReply_short :
  (length payload < 126)%nat ->
  Full.encodeReply string =
  Normal (byte_of_Z 0x81 :: byte_of_Z (Z.of_nat (length payload)) :: payload).
Proof.
  intros H. unfold Full.encodeReply, byteLength.
  replace (Z.of_nat (length payload) <? 126) with true
    by (symmetry; apply Z.ltb_lt; lia).
  cbn [Z.eqb Z.ltb Z.compare].
  unfold alloc.
  replace (Z.to_nat (2 + 0 + Z.of_nat (length payload)))
    with (S (S (length payload))) by lia.
  rewrite !replicate_S.
  rewrite writeUInt8_ok by (cbn [length]; lia). cbn [bind].
  change (Z.to_nat 0) with 0%nat. cbn [insert list_insert].
  rewrite writeUInt8_ok by (cbn [length]; lia). cbn [bind].
  change (Z.to_nat 1) with 1%nat. cbn [insert list_insert].
  change 2 with (Z.of_nat 2).
  rewrite write_exact by (cbn [length]; rewrite length_replicate; lia).
  reflexivity.
Qed.

(** The extended form: the marker 126, the length on two bytes with the
    high byte first, then the serialized payload. *)
Lemma encodeReply_extended :
  126 <= Z.of_nat (length payload) <= 65535 ->
  Full.encodeReply string =
  Normal (byte_of_Z 0x81 :: byte_of_Z 126
          :: byte_of_Z (Z.shiftr (Z.of_nat (length payload)) 8)
          :: byte_of_Z (Z.of_nat (length payload)) :: payload).
Proof.
  intros H. unfold Full.encodeReply, byteLength.
  replace (Z.of_nat (length payload) <? 126) with false
    by (symmetry; apply Z.ltb_ge; lia).
  cbn [Z.eqb Z.ltb Z.compare Pos.compare Pos.compare_cont].
  unfold alloc.
  replace (Z.to_nat (2 + 2 + Z.of_nat (length payload)))
    with (S (S (S (S (length payload))))) by lia.
  rewrite !replicate_S.
  rewrite writeUInt8_ok by (cbn [length]; lia). cbn [bind].
  change (Z.to_nat 0) with 0%nat. cbn [insert list_insert].
  rewrite writeUInt8_ok by (cbn [length]; lia). cbn [bind].
  change (Z.to_nat 1) with 1%nat. cbn [insert list_insert].
  rewrite writeUInt16BE_ok by (cbn [length]; lia). cbn [bind].
  change (Z.to_nat 2) with 2%nat. cbn [insert list_insert].
  change (2 + 2) with (Z.of_nat 4).
  rewrite write_exact by (cbn [length]; rewrite length_replicate; lia).
  reflexivity.
Qed.

(** Beyond 65535 bytes the two-byte length cannot be written: the
    encoder raises a RangeError. *)
Lemma encodeReply_too_long :
  65535 < Z.of_nat (length payload) ->
  Full.encodeReply string = Throw RangeError.
Proof.
  intros H. unfold Full.encodeReply, byteLength.
  replace (Z.of_nat (length payload) <? 126) with false
    by (symmetry; apply Z.ltb_ge; lia).
  cbn [Z.eqb Z.ltb Z.compare Pos.compare Pos.compare_cont].
  unfold alloc.
  replace (Z.to_nat (2 + 2 + Z.of_nat (length payload)))
    with (S (S (S (S (length payload))))) by lia.
  rewrite !replicate_S.
  rewrite writeUInt8_ok by (cbn [length]; lia). cbn [bind].
  change (Z.to_nat 0) with 0%nat. cbn [insert list_insert].
  rewrite writeUInt8_ok by (cbn [length]; lia). cbn [bind].
  rewrite writeUInt16BE_out_of_range by lia. reflexivity.
Qed.

End EncodeReply.

Lemma uint16_bytes (n : Z) :
  0 <= n <= 65535 ->
  byte_to_Z (byte_of_Z (Z.shiftr n 8)) * 256 + byte_to_Z (byte_of_Z n) = n.
Proof.
  intros H. rewrite !byte_to_of_Z, Z.shiftr_div_pow2 by lia.
  change (2 ^ 8) with 256.
  rewrite (Z.mod_small (n / 256)) by (split; [apply Z.div_pos | apply Z.div_lt_upper_bound]; lia).
  pose proof (Z.div_mod n 256 ltac:(lia)). lia.
Qed.

(** C7: when the serialized payload (the JSON-quoted text in UTF-8) has
    L < 126 bytes, the frame has exactly 2 + L bytes, byte 0 is 0b10000001,
    byte 1 is L, and the payload starts at offset 2; when L is between 126
    and 65535, the frame has exactly 4 + L bytes, byte 1 is 126, bytes 2
    and 3 hold L as a 16-bit big-endian integer, and the payload starts at
    offset 4. *)
Theorem encodeReply_layout (string : jsstring) :
  (Z.of_nat (length (serialized string)) < 126 ->
   exists frame,
     Full.encodeReply string = Normal frame /\
     Z.of_nat (length frame) = 2 + Z.of_nat (length (serialized string)) /\
     frame_byte frame 0 = Some 129 /\
     frame_byte frame 1 = Some (Z.of_nat (length (serialized string))) /\
     drop 2 frame = serialized string) /\
  (126 <= Z.of_nat (length (serialized string)) <= 65535 ->
   exists frame,
     Full.encodeReply string = Normal frame /\
     Z.of_nat (length frame) = 4 + Z.of_nat (length (serialized string)) /\
     frame_byte frame 0 = Some 129 /\
     frame_byte frame 1 = Some 126 /\
     (exists hi lo,
        frame_byte frame 2 = Some hi /\ frame_byte frame 3 = Some lo /\
        hi * 256 + lo = Z.of_nat (length (serialized string))) /\
     drop 4 frame = serialized string).
Proof.
  unfold serialized, frame_byte. split; intros H.
  - eexists. split; [apply encodeReply_short; lia |].
    cbn [length lookup list_lookup fmap option_fmap option_map drop].
    repeat split.
    + lia.
    + f_equal. apply byte_to_of_Z_small. lia.
  - eexists. split; [by apply encodeReply_extended |].
    cbn [length lookup list_lookup fmap option_fmap option_map drop].
    repeat split.
    + lia.
    + eexists. eexists. split; [reflexivity |]. split; [reflexivity |].
      apply uint16_bytes. lia.
Qed.

(** The fixed reply, 32 bytes once serialized, and a text of 200
    letters, 202 bytes once serialized. *)
Lemma encodeReply_layout_witness :
  (exists frame,
     Full.encodeReply hello = Normal frame /\
     Z.of_nat (length frame) = 2 + Z.of_nat (length (serialized hello)) /\
     frame_byte frame 0 = Some 129 /\
     frame_byte frame 1 = Some (Z.of_nat (length (serialized hello))) /\
     drop 2 frame = serialized hello) /\
  (exists frame,
     Full.encodeReply long_text = Normal frame /\
     Z.of_nat (length frame) = 4 + Z.of_nat (length (serialized long_text)) /\
     frame_byte frame 0 = Some 129 /\
     frame_byte frame 1 = Some 126 /\
     (exists hi lo,
        frame_byte frame 2 = Some hi /\ frame_byte frame 3 = Some lo /\
        hi * 256 + lo = Z.of_nat (length (serialized long_text))) /\
     drop 4 frame = serialized long_text).
Proof.
  split.
  - apply (proj1 (encodeReply_layout hello)). vm_compute. reflexivity.
  - apply (proj2 (encodeReply_layout long_text)).
    split; vm_compute; discriminate.
Defined.

(** ** Encoder against decoder *)

(** C9: the encoder and the decoder of the class are not inverse to each
    other. The frame of the fixed reply "Hello from a WebSocket Server!"
    carries its serialized payload unmasked from offset 2; the decoder
    takes the bytes 2..5 of any chunk for a mask key and XORs them into
    the bytes from offset 6 on; so decoding that frame returns neither the
    serialized payload nor the reply. *)
Theorem encodeReply_parseMessage_not_inverse :
  (forall chunk i,
     Z.of_nat i < declared_length chunk ->
     Full.parseMessage chunk !! i =
       Some (Z.lxor (byte_or_zero chunk (6 + i))
                    (byte_or_zero chunk (2 + i mod 4)))) /\
  exists frame,
    Full.encodeReply hello = Normal frame /\
    drop 2 frame = serialized hello /\
    toString (serialized hello) = JSON_stringify hello /\
    Full.parseMessage frame <> JSON_stringify hello /\
    Full.parseMessage frame <> hello /\
    Full.parseMessage frame =
      [78; 39; 69; 10; 80; 39; 8; 76; 67; 104; 50; 9; 64; 27; 10; 15; 73;
       45; 17; 76; 113; 45; 23; 26; 71; 58; 68; 78; 34; 72; 101; 108].
Proof.
  split; [intros chunk i; apply parseMessage_lookup |].
  eexists. split; [vm_compute; reflexivity |].
  split; [vm_compute; reflexivity |].
  split; [vm_compute; reflexivity |].
  split; [| split].
  - intros H. apply (f_equal (fun s => s !! 0%nat)) in H.
    vm_compute in H. discriminate H.
  - intros H. apply (f_equal (fun s => s !! 0%nat)) in H.
    vm_compute in H. discriminate H.
  - vm_compute. reflexivity.
Qed.

(** ** Sample runs *)

(** SHA-1 and base64 on the standard vector "abc". *)
Example sha1_base64_abc :
  sha1_base64_of_binary (lit "abc") = lit "qZk+NkcGgWq6PiVxeFDCbJzQ2J0=".
Proof. vm_compute. reflexivity. Qed.

(** Decoding the euro sign and an emoji, then a truncated sequence. *)
Example toString_multibyte :
  toString (map byte_of_Z [0xE2; 0x82; 0xAC; 0xF0; 0x9F; 0x98; 0x80; 0x41]) =
    [0x20AC; 0xD83D; 0xDE00; 0x41] /\
  toString (map byte_of_Z [0x41; 0xE2; 0x82; 0x42; 0xFF]) =
    [0x41; 0xFFFD; 0x42; 0xFFFD].
Proof. split; vm_compute; reflexivity. Qed.

(** A quote, a line feed and a control character are escaped. *)
Example JSON_stringify_escapes :
  JSON_stringify [97; 34; 10; 1] =
  [34; 97; 92; 34; 92; 110; 92; 117; 48; 48; 48; 49; 34].
Proof. vm_compute. reflexivity. Qed.

(** The three categories, and the replies. *)
Example classify_samples :
  Full.classify sample_upgrade_request = Normal Full.UpgradeRequest /\
  Full.classify plain_request = Normal Full.PlainHttp /\
  Full.classify masked_hi = Normal Full.DataFrame.
Proof. repeat split; vm_compute; reflexivity. Qed.

Example generateServerReply_samples :
  Full.generateServerReply sample_upgrade_request =
    Normal (Full.Str (switching_protocols (lit "s3pPLMBiTxaQ9kYGzzhZRbK+xOo="))) /\
  Full.generateServerReply plain_request = Normal Full.Null /\
  Full.generateServerReply masked_hi =
    Normal (Full.Buf (byte_of_Z 0x81 :: byte_of_Z 32 :: serialized hello)) /\
  HandshakeOnly.generateServerReply sample_upgrade_request =
    Normal (Some (switching_protocols_lf (lit "s3pPLMBiTxaQ9kYGzzhZRbK+xOo="))) /\
  HandshakeOnly.generateServerReply masked_hi = Normal None.
Proof.
  split; [vm_compute; reflexivity |].
  split; [vm_compute; reflexivity |].
  split; [vm_compute; reflexivity |].
  split; vm_compute; reflexivity.
Qed.

(** ** The data callback *)

Lemma encodeReply_hello : Full.encodeReply hello = Normal hello_frame.
Proof. vm_compute. reflexivity. Qed.

(** X1: what the complete variant writes to the socket for a chunk. If
    the first line contains "HTTP/1.1" and some line contains
    "Upgrade: websocket", it writes the handshake message; if the first
    line contains "HTTP/1.1" and no line contains "Upgrade: websocket", it
    writes nothing; otherwise it writes the frame of the fixed reply, the
    same 34 bytes whatever the chunk holds. No chunk makes it raise. *)
Theorem Full_onData_cases (data : Buffer) :
  exists first rest,
    lines data = first :: rest /\
    (occurs_in (lit "HTTP/1.1") first /\
     Exists (occurs_in (lit "Upgrade: websocket")) (lines data) ->
     Full.onData data =
       Normal (Some (Full.Str (Full.generateHandshakeMsg data)))) /\
    (occurs_in (lit "HTTP/1.1") first /\
     ~ Exists (occurs_in (lit "Upgrade: websocket")) (lines data) ->
     Full.onData data = Normal None) /\
    (~ occurs_in (lit "HTTP/1.1") first ->
     Full.onData data = Normal (Some (Full.Buf hello_frame))).
Proof.
  destruct (lines_first data) as (first & rest & Hl).
  exists first, rest. split; [exact Hl |].
  unfold Full.onData. rewrite generateServerReply_by_category.
  change (lit "Hello from a WebSocket Server!") with hello.
  rewrite encodeReply_hello.
  unfold Full.classify. rewrite (isHttp_first_line data first rest Hl).
  cbn [bind].
  pose proof (includes_occurs first (lit "HTTP/1.1")) as Hhttp.
  pose proof (isSocketUpgradeRequest_Exists data) as Hup.
  destruct (includes first (lit "HTTP/1.1")) eqn:E1;
    [destruct (Full.isSocketUpgradeRequest data) eqn:E2 |]; cbn [bind].
  - split; [done |]. split; [| intros Hn; exfalso; apply Hn; by apply Hhttp].
    intros [_ Hn]. exfalso. apply Hn. by apply Hup.
  - split; [| split; [done |]].
    + intros [_ Hex]. apply Hup in Hex. discriminate Hex.
    + intros Hn. exfalso. apply Hn. by apply Hhttp.
  - split; [| split; [| done]].
    + intros [Hocc _]. apply Hhttp in Hocc. discriminate Hocc.
    + intros [Hocc _]. apply Hhttp in Hocc. discriminate Hocc.
Qed.

Lemma HandshakeOnly_isHttp_first_line (data : Buffer) (first : jsstring) (rest : list jsstring) :
  lines data = first :: rest ->
  HandshakeOnly.isHttp data = Normal (includes first (lit "HTTP/1.1")).
Proof. unfold lines, HandshakeOnly.isHttp. by intros ->. Qed.

(** X2: what the handshake-only variant writes to the socket. It writes
    the handshake message when the first line contains "HTTP/1.1" and some
    line contains "Upgrade: websocket", and nothing for every other chunk:
    plain HTTP and data frames alike get no answer. No chunk makes it
    raise. *)
Theorem HandshakeOnly_onData_cases (data : Buffer) :
  exists first rest,
    lines data = first :: rest /\
    (occurs_in (lit "HTTP/1.1") first /\
     Exists (occurs_in (lit "Upgrade: websocket")) (lines data) ->
     HandshakeOnly.onData data =
       Normal (Some (HandshakeOnly.generateHandshakeMsg data))) /\
    (~ (occurs_in (lit "HTTP/1.1") first /\
        Exists (occurs_in (lit "Upgrade: websocket")) (lines data)) ->
     HandshakeOnly.onData data = Normal None).
Proof.
  destruct (lines_first data) as (first & rest & Hl).
  exists first, rest. split; [exact Hl |].
  unfold HandshakeOnly.onData, HandshakeOnly.generateServerReply.
  rewrite (HandshakeOnly_isHttp_first_line data first rest Hl). cbn [bind].
  pose proof (includes_occurs first (lit "HTTP/1.1")) as Hhttp.
  pose proof (isSocketUpgradeRequest_Exists data) as Hup.
  change (HandshakeOnly.isSocketUpgradeRequest data)
    with (Full.isSocketUpgradeRequest data).
  destruct (includes first (lit "HTTP/1.1")) eqn:E1;
    [destruct (Full.isSocketUpgradeRequest data) eqn:E2 |];
    cbn [andb bind]; split; try done.
  - intros Hn. exfalso. apply Hn. split; [by apply Hhttp | by apply Hup].
  - intros [_ Hex]. apply Hup in Hex. discriminate Hex.
  - intros [Hocc _]. apply Hhttp in Hocc. discriminate Hocc.
Qed.

(** ** Limits of the codec *)

(** X3: the encoder raises exactly when the serialized payload is longer
    than 65535 bytes, and what it raises is a RangeError, from writing the
    16-bit length; up to 65535 bytes it returns a frame. *)
Theorem encodeReply_raises_iff (string : jsstring) :
  (Full.encodeReply string = Throw RangeError <->
   65535 < Z.of_nat (length (serialized string))) /\
  ((exists frame, Full.encodeReply string = Normal frame) <->
   Z.of_nat (length (serialized string)) <= 65535).
Proof.
  unfold serialized.
  destruct (Z_lt_le_dec 65535
              (Z.of_nat (length (utf8_encode (JSON_stringify string)))))
    as [Hlong | Hfit].
  - rewrite (encodeReply_too_long string Hlong). split; split; try done; try lia.
    intros [frame Hframe]. discriminate Hframe.
  - destruct (Z_lt_le_dec
                (Z.of_nat (length (utf8_encode (JSON_stringify string)))) 126)
      as [Hshort | Hext].
    + rewrite (encodeReply_short string) by lia.
      split; split; try done; try lia. eauto.
    + rewrite (encodeReply_extended string) by lia.
      split; split; try done; try lia. eauto.
Qed.

(** A text of 65534 letters is refused. *)
Lemma encodeReply_raises_iff_witness :
  Full.encodeReply too_long_text = Throw RangeError.
Proof.
  apply (proj2 (proj1 (encodeReply_raises_iff too_long_text))).
  vm_compute. reflexivity.
Defined.

(** X4: whatever the chunk, the decoder returns at most 127 code units,
    each of them a single byte value; and a chunk of fewer than 2 bytes,
    the empty chunk included, decodes to the empty string. *)
Theorem parseMessage_bounds (chunk : Buffer) :
  (length (Full.parseMessage chunk) <= 127)%nat /\
  Forall single_byte (Full.parseMessage chunk) /\
  ((length chunk < 2)%nat -> Full.parseMessage chunk = []).
Proof.
  pose proof (parseMessage_length chunk) as Hlen.
  pose proof (declared_length_range chunk) as Hr.
  split; [lia |]. split.
  - rewrite parseMessage_map. apply Forall_forall. intros c Hc.
    apply list_elem_of_In, in_map_iff in Hc as (k & <- & _).
    apply lxor_byte_range; apply byte_or_zero_range.
  - intros Hshort. apply length_zero_iff_nil.
    assert (declared_length chunk = 0) as H0; [| lia].
    unfold declared_length. by rewrite lookup_ge_None_2 by lia.
Qed.

(** X5: the decoder never looks at the first byte of the chunk nor at
    the mask bit of the second: two chunks that agree from the third byte
    on and in the low seven bits of the second decode alike. *)
Theorem parseMessage_ignores_header (b0 b0' b1 b1' : byte) (rest : Buffer) :
  Z.land (byte_to_Z b1) 0x7F = Z.land (byte_to_Z b1') 0x7F ->
  Full.parseMessage (b0 :: b1 :: rest) = Full.parseMessage (b0' :: b1' :: rest).
Proof.
  intros H. rewrite !parseMessage_map.
  unfold declared_length. cbn [lookup list_lookup]. rewrite H.
  apply map_ext. intros k.
  change (byte_or_zero (b0 :: b1 :: rest) (6 + k))
    with (byte_or_zero rest (4 + k)).
  change (byte_or_zero (b0' :: b1' :: rest) (6 + k))
    with (byte_or_zero rest (4 + k)).
  reflexivity.
Qed.

(** The frame of "Hi" with another first byte and the mask bit cleared
    still decodes to "Hi". *)
Lemma parseMessage_ignores_header_witness :
  masked_hi_variant = byte_of_Z 0x02 :: byte_of_Z 0x02 :: drop 2 masked_hi /\
  Full.parseMessage masked_hi_variant = lit "Hi" /\
  Full.parseMessage (byte_of_Z 0x81 :: byte_of_Z 0x82 :: drop 2 masked_hi) =
  Full.parseMessage (byte_of_Z 0x02 :: byte_of_Z 0x02 :: drop 2 masked_hi).
Proof.
  split; [vm_compute; reflexivity |]. split; [vm_compute; reflexivity |].
  apply (parseMessage_ignores_header
           (byte_of_Z 0x81) (byte_of_Z 0x02) (byte_of_Z 0x82) (byte_of_Z 0x02)
           (drop 2 masked_hi)).
  vm_compute. reflexivity.
Defined.

Lemma byte_or_zero_app_l (chunk extra : Buffer) (i : nat) :
  (i < length chunk)%nat ->
  byte_or_zero (chunk ++ extra) i = byte_or_zero chunk i.
Proof. intros H. unfold byte_or_zero. by rewrite lookup_app_l. Qed.

(** X6: bytes that follow the declared payload are ignored: when the
    chunk holds the 6 + L bytes its header declares, whatever is appended
    to it, a second frame for instance, leaves the decoded text
    unchanged. *)
Theorem parseMessage_ignores_trailing (chunk extra : Buffer) :
  complete_frame chunk ->
  Full.parseMessage (chunk ++ extra) = Full.parseMessage chunk.
Proof.
  unfold complete_frame. intros H.
  pose proof (declared_length_range chunk) as Hr.
  assert (declared_length (chunk ++ extra) = declared_length chunk) as Hd.
  { unfold declared_length. by rewrite lookup_app_l by lia. }
  rewrite !parseMessage_map, Hd.
  apply map_ext_in. intros k Hk. apply in_seq in Hk.
  pose proof (Nat.mod_upper_bound k 4 ltac:(lia)) as Hm.
  rewrite !byte_or_zero_app_l by lia. reflexivity.
Qed.

(** The frame of "Hi" followed by the start of another frame. *)
Lemma parseMessage_ignores_trailing_witness :
  Full.parseMessage (masked_hi ++ trailing_bytes) = Full.parseMessage masked_hi.
Proof.
  apply (parseMessage_ignores_trailing masked_hi trailing_bytes).
  unfold complete_frame. vm_compute. discriminate.
Defined.

(** ** The key of the handshake *)

Lemma generateServerKey_empty :
  Full.generateServerKey [] = empty_key_accept /\
  HandshakeOnly.generateServerKey [] = empty_key_accept.
Proof. split; vm_compute; reflexivity. Qed.

Lemma key_of_short_line (line : jsstring) :
  (length line <= 20)%nat -> key_of_line line = [].
Proof.
  intros H. unfold key_of_line.
  replace (length (drop 19 line) - 1)%nat with 0%nat
    by (rewrite length_drop; lia).
  reflexivity.
Qed.

Lemma key_of_framed_line (x c : Z) (k : jsstring) :
  key_of_line (key_prefix ++ x :: k ++ [c]) = k.
Proof.
  unfold key_of_line.
  change (drop 19 (key_prefix ++ x :: k ++ [c])) with (k ++ [c]).
  rewrite length_app. cbn [length].
  by rewrite take_app_length' by lia.
Qed.

(** The reply by the last key line, for both variants. *)
Lemma generateHandshakeMsg_last (data : Buffer) (before after : list jsstring) (line : jsstring) :
  lines data = before ++ line :: after ->
  is_key_line line ->
  Forall (fun l => ~ is_key_line l) after ->
  Full.generateHandshakeMsg data =
    switching_protocols (Full.generateServerKey (key_of_line line)) /\
  HandshakeOnly.generateHandshakeMsg data =
    switching_protocols_lf (HandshakeOnly.generateServerKey (key_of_line line)).
Proof.
  intros Hl Hline Hafter.
  rewrite Full_generateHandshakeMsg_scan, HandshakeOnly_generateHandshakeMsg_scan.
  by rewrite (scan_key_last data before after line Hl Hline Hafter).
Qed.

(** X7: the value of the key is not validated. When the deciding key line
    has at most 20 code units -- the bare header name, with or without a
    space and a line end -- the key is empty and the handshake is still
    accepted, with the accept key of the empty key,
    "Kfh9QIsMVZcl6xEPYxPHzW8SZ8w=", not rejected with 400. Both
    variants. *)
Theorem short_key_line_accepted (data : Buffer) (before after : list jsstring) (line : jsstring) :
  lines data = before ++ line :: after ->
  is_key_line line ->
  (length line <= 20)%nat ->
  Forall (fun l => ~ is_key_line l) after ->
  Full.generateHandshakeMsg data =
    switching_protocols (lit "Kfh9QIsMVZcl6xEPYxPHzW8SZ8w=") /\
  HandshakeOnly.generateHandshakeMsg data =
    switching_protocols_lf (lit "Kfh9QIsMVZcl6xEPYxPHzW8SZ8w=").
Proof.
  intros Hl Hline Hshort Hafter.
  destruct (generateHandshakeMsg_last data before after line Hl Hline Hafter)
    as [-> ->].
  rewrite (key_of_short_line line Hshort).
  destruct generateServerKey_empty as [-> ->]. by split.
Qed.

(** A request whose key line is "Sec-WebSocket-Key:" and a carriage
    return. *)
Lemma short_key_line_accepted_witness :
  Full.generateHandshakeMsg bare_key_request =
    switching_protocols (lit "Kfh9QIsMVZcl6xEPYxPHzW8SZ8w=") /\
  HandshakeOnly.generateHandshakeMsg bare_key_request =
    switching_protocols_lf (lit "Kfh9QIsMVZcl6xEPYxPHzW8SZ8w=").
Proof.
  apply (short_key_line_accepted bare_key_request
           [lit "GET /chat HTTP/1.1" ++ [CR]; lit "Upgrade: websocket" ++ [CR]]
           [[CR]; []]
           (lit "Sec-WebSocket-Key:" ++ [CR])).
  - vm_compute. reflexivity.
  - apply startsWith_prefix. vm_compute. reflexivity.
  - vm_compute. lia.
  - apply Forall_not_key_line. repeat constructor.
Defined.

(** X8: the key is cut out by position alone. Of the deciding key line,
    the code unit after "Sec-WebSocket-Key:" is dropped whether or not it
    is a space, and the last code unit is dropped whether or not it is a
    carriage return; the accept key is derived from what lies between. So
    a request whose lines end in a bare line feed loses the last character
    of its key. Both variants. *)
Theorem key_cut_by_position (data : Buffer) (before after : list jsstring) (x c : Z) (k : jsstring) :
  lines data = before ++ (lit "Sec-WebSocket-Key:" ++ x :: k ++ [c]) :: after ->
  Forall (fun l => ~ is_key_line l) after ->
  Full.generateHandshakeMsg data =
    switching_protocols (Full.generateServerKey k) /\
  HandshakeOnly.generateHandshakeMsg data =
    switching_protocols_lf (HandshakeOnly.generateServerKey k).
Proof.
  intros Hl Hafter.
  assert (is_key_line (key_prefix ++ x :: k ++ [c])) as Hline
    by (by exists (x :: k ++ [c])).
  destruct (generateHandshakeMsg_last data before after _ Hl Hline Hafter)
    as [-> ->].
  by rewrite key_of_framed_line.
Qed.

(** A request with bare line feeds and the key line
    "Sec-WebSocket-Key: dGhlIHNhbXBsZSBub25jZQ==X" is answered as if the
    key were "dGhlIHNhbXBsZSBub25jZQ==". *)
Lemma key_cut_by_position_witness :
  Full.generateServerKey (lit "dGhlIHNhbXBsZSBub25jZQ==") =
    lit "s3pPLMBiTxaQ9kYGzzhZRbK+xOo=" /\
  Full.generateHandshakeMsg lf_request =
    switching_protocols
      (Full.generateServerKey (lit "dGhlIHNhbXBsZSBub25jZQ==")) /\
  HandshakeOnly.generateHandshakeMsg lf_request =
    switching_protocols_lf
      (HandshakeOnly.generateServerKey (lit "dGhlIHNhbXBsZSBub25jZQ==")).
Proof.
  split; [vm_compute; reflexivity |].
  apply (key_cut_by_position lf_request
           [lit "GET /chat HTTP/1.1"; lit "Upgrade: websocket"]
           [[]; []] 32 88 (lit "dGhlIHNhbXBsZSBub25jZQ==")).
  - vm_compute. reflexivity.
  - apply Forall_not_key_line. repeat constructor.
Defined.

(** X9: the two variants decide alike. For every chunk, either both
    return "HTTP/1.1 400 Bad Request", or both accept with the same accept
    key, the complete variant with CR LF line ends and the closing blank
    line, the handshake-only variant with bare line feeds and no line end
    after the key. *)
Theorem variants_agree (data : Buffer) :
  (Full.generateHandshakeMsg data = lit "HTTP/1.1 400 Bad Request" /\
   HandshakeOnly.generateHandshakeMsg data = lit "HTTP/1.1 400 Bad Request") \/
  (exists line,
     line ∈ lines data /\ is_key_line line /\
     Full.generateHandshakeMsg data =
       switching_protocols (Full.generateServerKey (key_of_line line)) /\
     HandshakeOnly.generateHandshakeMsg data =
       switching_protocols_lf (Full.generateServerKey (key_of_line line))).
Proof.
  destruct (existsb (fun l => startsWith l key_prefix) (lines data)) eqn:E.
  - right. apply Exists_key_line_existsb, scan_key_some in E
      as (before & line & after & Hl & Hline & Hafter & _).
    exists line. split; [| split; [assumption |]].
    + rewrite Hl. apply elem_of_app. right. apply elem_of_cons. by left.
    + exact (generateHandshakeMsg_last data before after line Hl Hline Hafter).
  - left.
    assert (Forall (fun l => ~ is_key_line l) (lines data)) as Hnone.
    { apply Forall_forall. intros l Hl Hkey.
      assert (existsb (fun l => startsWith l key_prefix) (lines data) = true);
        [| congruence].
      apply Exists_key_line_existsb, Exists_exists. eauto. }
    apply scan_key_none in Hnone.
    rewrite Full_generateHandshakeMsg_scan, HandshakeOnly_generateHandshakeMsg_scan.
    by rewrite Hnone.
Qed.

Lemma sha1_length (msg : Buffer) : length (sha1 msg) = 20%nat.
Proof.
  unfold sha1.
  destruct (sha1_blocks _ _ _) as [[[[h0 h1] h2] h3] h4]. reflexivity.
Qed.

Lemma base64_char_unit (n : Z) : 0 <= n -> base64_unit (base64_char n).
Proof.
  intros H. unfold base64_char, base64_unit.
  destruct (Z.ltb_spec n 26); [lia |].
  destruct (Z.ltb_spec n 52); [lia |].
  destruct (Z.ltb_spec n 62); [lia |].
  destruct (Z.eqb_spec n 62); lia.
Qed.

(** The base64 text of 20 bytes: 28 code units of the alphabet, the last
    one the padding sign. *)
Lemma base64_of_20_bytes (digest : Buffer) :
  length digest = 20%nat ->
  length (base64 digest) = 28%nat /\
  last (base64 digest) = Some 61 /\
  Forall base64_unit (base64 digest).
Proof.
  intros H.
  do 20 (destruct digest as [|? digest]; [discriminate H |]).
  destruct digest; [| discriminate H].
  unfold base64. cbn [map base64_bytes app].
  split; [reflexivity |]. split; [reflexivity |].
  clear H.
  repeat match goal with
         | b : byte |- _ =>
             lazymatch goal with
             | _ : 0 <= byte_to_Z b < 256 |- _ => fail
             | _ => pose proof (byte_to_Z_range b)
             end
         end.
  repeat (constructor;
          [first [ apply base64_char_unit; Z.div_mod_to_equations; lia
                 | unfold base64_unit; lia ] |]).
  constructor.
Qed.

(** X10: whatever the key, the accept key has 28 code units, all of the
    base64 alphabet, the last one the padding sign "="; so it holds no
    carriage return and no line feed, and the lines of the response are
    the four the negotiator writes. Both variants. *)
Theorem accept_key_shape (key : jsstring) :
  HandshakeOnly.generateServerKey key = Full.generateServerKey key /\
  length (Full.generateServerKey key) = 28%nat /\
  last (Full.generateServerKey key) = Some 61 /\
  Forall base64_unit (Full.generateServerKey key) /\
  (CR ∉ Full.generateServerKey key) /\
  (LF ∉ Full.generateServerKey key).
Proof.
  split; [reflexivity |].
  unfold Full.generateServerKey, sha1_base64_of_binary.
  destruct (base64_of_20_bytes _ (sha1_length (latin1_encode (key ++ Full.guid))))
    as (Hlen & Hlast & Hall).
  split; [exact Hlen |]. split; [exact Hlast |]. split; [exact Hall |].
  rewrite Forall_forall in Hall.
  split; intros Hin; apply Hall in Hin; unfold base64_unit, CR, LF in Hin; lia.
Qed.

(** ** Plain text through the encoder *)

Lemma plain_asciib_spec (s : jsstring) :
  forallb plain_asciib s = true -> Forall plain_ascii s.
Proof.
  intros H. apply Forall_forall. intros c Hc.
  rewrite forallb_forall in H. specialize (H c).
  unfold plain_asciib, plain_ascii in *.
  rewrite !andb_true_iff, !negb_true_iff in H.
  destruct H as [[[H1 H2] H3] H4]; [by apply list_elem_of_In |].
  apply Z.leb_le in H1. apply Z.ltb_lt in H2.
  apply Z.eqb_neq in H3. apply Z.eqb_neq in H4. lia.
Qed.

Lemma plain_not_surrogate (c : Z) :
  0 <= c < 128 -> is_high_surrogate c = false /\ is_low_surrogate c = false.
Proof.
  intros H. unfold is_high_surrogate, is_low_surrogate.
  split; apply andb_false_iff; left; apply Z.leb_gt; lia.
Qed.

(** JSON leaves plain text as it is, between two quotes. *)
Lemma quote_body_plain (s : jsstring) :
  Forall plain_ascii s -> quote_body s = s.
Proof.
  induction 1 as [|c s Hc _ IH]; [reflexivity |].
  destruct Hc as (Hr & H34 & H92).
  destruct (plain_not_surrogate c ltac:(lia)) as [Hh Hl].
  cbn [quote_body]. rewrite Hh, Hl, IH. unfold quote_code_unit.
  repeat match goal with
         | |- context [?a =? ?b] =>
             destruct (Z.eqb_spec a b); [lia |]
         end.
  destruct (Z.ltb_spec c 32); [lia |]. reflexivity.
Qed.

(** A string of 7-bit code units is its own UTF-8 encoding. *)
Lemma utf8_chars_ascii (s : jsstring) :
  Forall (fun c => 0 <= c < 128) s -> concat (utf8_chars s) = s.
Proof.
  induction 1 as [|c s Hc _ IH]; [reflexivity |].
  destruct (plain_not_surrogate c Hc) as [Hh Hl].
  cbn [utf8_chars]. rewrite Hh, Hl. cbn [concat]. rewrite IH.
  unfold utf8_of_code_point.
  destruct (Z.ltb_spec c 128); [reflexivity | lia].
Qed.

Lemma serialized_plain (s : jsstring) :
  Forall plain_ascii s ->
  serialized s = byte_of_Z 34 :: map byte_of_Z s ++ [byte_of_Z 34].
Proof.
  intros H. unfold serialized, JSON_stringify, utf8_encode.
  rewrite (quote_body_plain s H), utf8_chars_ascii.
  - cbn [map]. by rewrite map_app.
  - constructor; [lia |]. apply Forall_app. split.
    + eapply Forall_impl; [exact H |]. intros c (Hr & _). lia.
    + constructor; [lia | constructor].
Qed.

(** X11: for a text of printable ASCII with no quote and no backslash, the
    payload on the wire is the text between two double quotes, two bytes
    longer than the text. So the encoder uses the short header up to 123
    characters, with the length byte holding the length of the text plus
    2, and the extended header from 124 characters up to 65533. *)
Theorem encodeReply_plain_text (text : jsstring) :
  Forall plain_ascii text ->
  serialized text = byte_of_Z 34 :: map byte_of_Z text ++ [byte_of_Z 34] /\
  (Z.of_nat (length text) <= 123 ->
   Full.encodeReply text =
     Normal (byte_of_Z 0x81 :: byte_of_Z (Z.of_nat (length text) + 2)
             :: byte_of_Z 34 :: map byte_of_Z text ++ [byte_of_Z 34])) /\
  (124 <= Z.of_nat (length text) <= 65533 ->
   Full.encodeReply text =
     Normal (byte_of_Z 0x81 :: byte_of_Z 126
             :: byte_of_Z (Z.shiftr (Z.of_nat (length text) + 2) 8)
             :: byte_of_Z (Z.of_nat (length text) + 2)
             :: byte_of_Z 34 :: map byte_of_Z text ++ [byte_of_Z 34])).
Proof.
  intros H. pose proof (serialized_plain text H) as Hs.
  assert (Z.of_nat (length (serialized text)) = Z.of_nat (length text) + 2) as Hlen.
  { rewrite Hs. cbn [length]. rewrite length_app, length_map. cbn [length]. lia. }
  unfold serialized in *.
  split; [exact Hs |]. split; intros Hn.
  - rewrite encodeReply_short by lia. by rewrite Hlen, Hs.
  - rewrite encodeReply_extended by lia. by rewrite Hlen, Hs.
Qed.

(** The fixed reply, 30 characters: a short frame with length byte 32. *)
Lemma encodeReply_plain_text_witness :
  serialized hello = byte_of_Z 34 :: map byte_of_Z hello ++ [byte_of_Z 34] /\
  (Z.of_nat (length hello) <= 123 ->
   Full.encodeReply hello =
     Normal (byte_of_Z 0x81 :: byte_of_Z (Z.of_nat (length hello) + 2)
             :: byte_of_Z 34 :: map byte_of_Z hello ++ [byte_of_Z 34])) /\
  (124 <= Z.of_nat (length hello) <= 65533 ->
   Full.encodeReply hello =
     Normal (byte_of_Z 0x81 :: byte_of_Z 126
             :: byte_of_Z (Z.shiftr (Z.of_nat (length hello) + 2) 8)
             :: byte_of_Z (Z.of_nat (length hello) + 2)
             :: byte_of_Z 34 :: map byte_of_Z hello ++ [byte_of_Z 34])).
Proof.
  apply (encodeReply_plain_text hello).
  apply plain_asciib_spec. vm_compute. reflexivity.
Defined.

(** ** The header of a server frame *)

Lemma utf8_of_code_point_length (c : Z) : (1 <= length (utf8_of_code_point c))%nat.
Proof.
  unfold utf8_of_code_point.
  destruct (c <? 128); [cbn [length]; lia |].
  destruct (c <? 2048); [cbn [length]; lia |].
  destruct (c <? 65536); cbn [length]; lia.
Qed.

Lemma utf8_chars_length (c : Z) (s : jsstring) :
  (1 <= length (concat (utf8_chars (c :: s))))%nat.
Proof.
  cbn [utf8_chars].
  destruct (is_high_surrogate c);
    [destruct s as [|d s']; [| destruct (is_low_surrogate d)]
    | destruct (is_low_surrogate c)];
    cbn [concat]; rewrite length_app;
    match goal with
    | |- context [utf8_of_code_point ?x] =>
        pose proof (utf8_of_code_point_length x)
    end; lia.
Qed.

(** The serialized payload holds at least the two quotes. *)
Lemma serialized_length (string : jsstring) :
  (2 <= length (serialized string))%nat.
Proof.
  unfold serialized, JSON_stringify, utf8_encode. rewrite length_map.
  assert (is_high_surrogate 34 = false) as Hh by reflexivity.
  assert (is_low_surrogate 34 = false) as Hl by reflexivity.
  cbn [utf8_chars]. rewrite Hh, Hl. cbn [concat]. rewrite length_app.
  destruct (quote_body string ++ [34]) as [|c s] eqn:E.
  - destruct (quote_body string); discriminate E.
  - pose proof (utf8_chars_length c s).
    pose proof (utf8_of_code_point_length 34). lia.
Qed.

(** X12: every frame the encoder returns starts with the byte 0x81 (final
    fragment, text opcode); its second byte is at most 126, so the mask bit
    is never set; the serialized payload follows a header of 2 or 4 bytes
    unchanged, unmasked, to the end of the frame; and the frame has at
    least 4 bytes. *)
Theorem encodeReply_header (string : jsstring) (frame : Buffer) :
  Full.encodeReply string = Normal frame ->
  frame_byte frame 0 = Some 0x81 /\
  (exists b1, frame_byte frame 1 = Some b1 /\ 0 <= b1 <= 126) /\
  (exists header,
     frame = header ++ serialized string /\
     (length header = 2%nat \/ length header = 4%nat)) /\
  (4 <= length frame)%nat.
Proof.
  pose proof (serialized_length string) as Hmin. unfold serialized in *.
  intros H.
  destruct (Z_lt_le_dec
              (Z.of_nat (length (utf8_encode (JSON_stringify string)))) 126)
    as [Hshort | Hlong].
  - rewrite encodeReply_short in H by lia. injection H as <-.
    unfold frame_byte. cbn [lookup list_lookup fmap option_fmap option_map].
    split; [reflexivity |]. split; [| split].
    + exists (Z.of_nat (length (utf8_encode (JSON_stringify string)))).
      split; [| lia]. f_equal. apply byte_to_of_Z_small. lia.
    + by exists [byte_of_Z 0x81;
                 byte_of_Z (Z.of_nat (length (utf8_encode (JSON_stringify string))))];
        eauto.
    + cbn [length]. lia.
  - destruct (Z_lt_le_dec 65535
                (Z.of_nat (length (utf8_encode (JSON_stringify string)))))
      as [Htoo | Hfit].
    + rewrite encodeReply_too_long in H by lia. discriminate H.
    + rewrite encodeReply_extended in H by lia. injection H as <-.
      unfold frame_byte. cbn [lookup list_lookup fmap option_fmap option_map].
      split; [reflexivity |]. split; [| split].
      * exists 126. split; [reflexivity | lia].
      * by exists [byte_of_Z 0x81; byte_of_Z 126;
                   byte_of_Z (Z.shiftr (Z.of_nat (length (utf8_encode (JSON_stringify string)))) 8);
                   byte_of_Z (Z.of_nat (length (utf8_encode (JSON_stringify string))))];
          eauto.
      * cbn [length]. lia.
Qed.

(** The frame of the fixed reply. *)
Lemma encodeReply_header_witness :
  frame_byte hello_frame 0 = Some 0x81 /\
  (exists b1, frame_byte hello_frame 1 = Some b1 /\ 0 <= b1 <= 126) /\
  (exists header,
     hello_frame = header ++ serialized hello /\
     (length header = 2%nat \/ length header = 4%nat)) /\
  (4 <= length hello_frame)%nat.
Proof.
  apply (encodeReply_header hello hello_frame).
  vm_compute. reflexivity.
Defined.

(** ** The handshake, end to end *)

Lemma onData_upgrade (data : Buffer) (first : jsstring) (rest : list jsstring) :
  lines data = first :: rest ->
  occurs_in (lit "HTTP/1.1") first ->
  Exists (occurs_in (lit "Upgrade: websocket")) (lines data) ->
  Full.onData data = Normal (Some (Full.Str (Full.generateHandshakeMsg data))) /\
  HandshakeOnly.onData data = Normal (Some (HandshakeOnly.generateHandshakeMsg data)).
Proof.
  intros Hl Hhttp Hup.
  apply includes_occurs in Hhttp. apply isSocketUpgradeRequest_Exists in Hup.
  unfold Full.onData, Full.generateServerReply,
    HandshakeOnly.onData, HandshakeOnly.generateServerReply.
  rewrite (isHttp_first_line data first rest Hl).
  rewrite (HandshakeOnly_isHttp_first_line data first rest Hl).
  change (HandshakeOnly.isSocketUpgradeRequest data)
    with (Full.isSocketUpgradeRequest data).
  rewrite Hhttp, Hup. by split.
Qed.

(** X13: an upgrade request -- "HTTP/1.1" in the first line,
    "Upgrade: websocket" in some line -- is always answered. With no key
    line, what goes to the socket is the bare status line
    "HTTP/1.1 400 Bad Request", 24 code units with no line end and no
    header; with a key line, the accepting response derived from the last
    one. Both variants. *)
Theorem upgrade_request_answered (data : Buffer) (first : jsstring) (rest : list jsstring) :
  lines data = first :: rest ->
  occurs_in (lit "HTTP/1.1") first ->
  Exists (occurs_in (lit "Upgrade: websocket")) (lines data) ->
  (Forall (fun l => ~ is_key_line l) (lines data) ->
   Full.onData data =
     Normal (Some (Full.Str (lit "HTTP/1.1 400 Bad Request"))) /\
   HandshakeOnly.onData data = Normal (Some (lit "HTTP/1.1 400 Bad Request"))) /\
  (forall before line after,
     lines data = before ++ line :: after ->
     is_key_line line ->
     Forall (fun l => ~ is_key_line l) after ->
     Full.onData data =
       Normal (Some (Full.Str
         (switching_protocols (Full.generateServerKey (key_of_line line))))) /\
     HandshakeOnly.onData data =
       Normal (Some
         (switching_protocols_lf
            (HandshakeOnly.generateServerKey (key_of_line line))))).
Proof.
  intros Hl Hhttp Hup.
  destruct (onData_upgrade data first rest Hl Hhttp Hup) as [-> ->].
  rewrite Full_generateHandshakeMsg_scan, HandshakeOnly_generateHandshakeMsg_scan.
  split.
  - intros Hnone. apply scan_key_none in Hnone. by rewrite Hnone.
  - intros before line after Hb Hline Hafter.
    by rewrite (scan_key_last data before after line Hb Hline Hafter).
Qed.

(** An upgrade request without a key line: the bare status line is
    written. *)
Lemma upgrade_request_answered_witness :
  Full.onData keyless_upgrade_request =
    Normal (Some (Full.Str (lit "HTTP/1.1 400 Bad Request"))) /\
  HandshakeOnly.onData keyless_upgrade_request =
    Normal (Some (lit "HTTP/1.1 400 Bad Request")).
Proof.
  apply (upgrade_request_answered keyless_upgrade_request
           (lit "GET /chat HTTP/1.1" ++ [CR])
           [lit "Upgrade: websocket" ++ [CR];
            lit "Connection: Upgrade" ++ [CR]; [CR]; []]).
  - vm_compute. reflexivity.
  - apply includes_occurs. vm_compute. reflexivity.
  - apply isSocketUpgradeRequest_Exists. vm_compute. reflexivity.
  - apply Forall_not_key_line. vm_compute. repeat constructor.
Defined.
